(** * bunoffe: the scripted mock executor and the pass-through realizer

    A shallow embedding of [testing.go] and [bunoffe.go].

    - Go values that travel through [any] are scalars, named structs and
      pointers into a heap of variables; pointers held by the operations of
      a mock and by the queries and arguments of a call point into the same
      heap, so aliasing between them is visible.  Variables of interface
      type, slices and maps are not part of the universe; in it, a value is
      assignable to a variable exactly when it has the variable's type.
    - Package [reflect] is modelled as far as [assign] uses it: [ValueOf],
      [Kind], [Elem] and [Set], with the panics they raise.
    - A panic is an outcome of a call, next to a normal return, and the
      state reached when the panic was raised is kept: a test recovers from
      it with [assert.Panics] and goes on using the same mock.
    - The world has a database component that only a query's own [Exec],
      [Scan] and [Exists] can change. *)

From stdpp Require Import base numbers option list strings gmap pretty.

Local Open Scope Z_scope.
Local Open Scope string_scope.

(** ** Go's [int] *)

Definition max_int : Z := 2 ^ 63 - 1.

(** Two's-complement wrap-around of a 64-bit signed integer. *)
Definition wrap (z : Z) : Z := (z + 2 ^ 63) `mod` 2 ^ 64 - 2 ^ 63.

Definition int_add (a b : Z) : Z := wrap (a + b).
Definition int_sub (a b : Z) : Z := wrap (a - b).

(** [len(s)] of a slice. *)
Definition len {A} (s : list A) : Z := Z.of_nat (length s).

(** [s[i]]: [None] stands for the run-time panic "index out of range". *)
Definition index {A} (s : list A) (i : Z) : option A :=
  if bool_decide (i < 0) then None else s !! Z.to_nat i.

(** ** Values behind [any] *)

Notation loc := nat (only parsing).

Inductive gotype :=
  | TInt | TString | TFloat64 | TBool
  | TStruct (name : string)
  | TPtr (elem : gotype).

Global Instance gotype_eq_dec : EqDecision gotype.
Proof. solve_decision. Defined.

Inductive value :=
  | VInt (n : Z)
  | VString (s : string)
  | VFloat64 (bits : Z)
  | VBool (b : bool)
  | VStruct (name : string) (fields : list value)
  | VPtr (elem : gotype) (target : option loc).

(** The dynamic type of a value. *)
Definition type_of (v : value) : gotype :=
  match v with
  | VInt _ => TInt
  | VString _ => TString
  | VFloat64 _ => TFloat64
  | VBool _ => TBool
  | VStruct name _ => TStruct name
  | VPtr t _ => TPtr t
  end.

(** An interface value of type [any]: [None] is the nil interface. *)
Notation any := (option value) (only parsing).

(** Go's [error]: nil, or an error carrying its message. *)
Notation error := (option string) (only parsing).

(** ** Panics and the state-and-panic monad *)

Inductive reflect_error :=
  | ElemOnNonPointer        (* reflect: call of reflect.Value.Elem on T Value *)
  | SetOnZeroValue          (* reflect: call of reflect.Value.Set on zero Value *)
  | SetUnaddressable        (* reflect.Value.Set using unaddressable value *)
  | SetNotAssignable (src dst : gotype). (* value of type src is not assignable to type dst *)

Inductive runtime_error :=
  | NilDereference          (* invalid memory address or nil pointer dereference *)
  | IndexOutOfRange         (* index out of range *)
  | MemoryFault.            (* a non-nil pointer without a cell; unreachable in safe Go *)

Inductive panic :=
  | PanicValue (s : string)          (* panic(s) raised by this package *)
  | RuntimeError (e : runtime_error)
  | ReflectError (e : reflect_error).

Inductive result (A : Type) :=
  | Return (a : A)
  | Panicked (p : panic).
Arguments Return {A} a.
Arguments Panicked {A} p.

Definition M (S A : Type) : Type := S -> result A * S.

Global Instance M_ret S : MRet (M S) := fun A a s => (Return a, s).

Global Instance M_bind S : MBind (M S) := fun A B k m s =>
  match m s with
  | (Return a, s') => k a s'
  | (Panicked p, s') => (Panicked p, s')
  end.

Definition raise {S A} (p : panic) : M S A := fun s => (Panicked p, s).

(** ** The world outside the mock: the heap and the database *)

Record World := mkWorld {
  heap : gmap loc value;
  db : list string;   (* the statements the database has received *)
}.

(** [*p = v] on the world. *)
Definition write (a : loc) (v : value) (w : World) : World :=
  mkWorld (<[a := v]> (heap w)) (db w).

Definition load (a : loc) : M World value := fun w =>
  match heap w !! a with
  | Some v => (Return v, w)
  | None => (Panicked (RuntimeError MemoryFault), w)
  end.

Definition store (a : loc) (v : value) : M World unit := fun w =>
  match heap w !! a with
  | Some _ => (Return tt, write a v w)
  | None => (Panicked (RuntimeError MemoryFault), w)
  end.

(** ** Package [reflect], as far as [assign] uses it *)

Module reflect.

Inductive Kind := Invalid | Ptr | Int | String | Float64 | Bool | Struct.

Global Instance Kind_eq_dec : EqDecision Kind.
Proof. solve_decision. Defined.

(** A [reflect.Value]: the zero Value, a copy of a value taken out of an
    interface (not addressable), or a variable reached through a pointer
    (addressable, of the pointer's element type). *)
Inductive Value :=
  | Zero
  | Copy (v : value)
  | Var (t : gotype) (a : loc).

Definition ValueOf (x : any) : Value :=
  match x with
  | None => Zero
  | Some v => Copy v
  end.

Definition kind_of_type (t : gotype) : Kind :=
  match t with
  | TInt => Int
  | TString => String
  | TFloat64 => Float64
  | TBool => Bool
  | TStruct _ => Struct
  | TPtr _ => Ptr
  end.

Definition Value_Kind (v : Value) : Kind :=
  match v with
  | Zero => Invalid
  | Copy x => kind_of_type (type_of x)
  | Var t _ => kind_of_type t
  end.

Definition elem_of_pointer (x : value) : M World Value :=
  match x with
  | VPtr t (Some a) => mret (Var t a)
  | VPtr _ None => mret Zero
  | _ => raise (ReflectError ElemOnNonPointer)
  end.

(** [v.Elem()]: the variable a pointer points to, the zero Value for a nil
    pointer, a panic for any other kind. *)
Definition Value_Elem (v : Value) : M World Value :=
  match v with
  | Zero => raise (ReflectError ElemOnNonPointer)
  | Copy x => elem_of_pointer x
  | Var (TPtr _) a => x ← load a; elem_of_pointer x
  | Var _ _ => raise (ReflectError ElemOnNonPointer)
  end.

(** [v.Set(x)]: [v] must be addressable, [x] must be valid and of a type
    assignable to that of [v].  The universe has no variable of interface
    type, so in it a type is assignable only to itself; Go also lets any
    value into a variable of type [any].  What is proved below from a [Set]
    that goes through holds there too; nothing is concluded from a [Set]
    refused on the ground of types alone. *)
Definition Value_Set (v x : Value) : M World unit :=
  match v with
  | Zero => raise (ReflectError SetOnZeroValue)
  | Copy _ => raise (ReflectError SetUnaddressable)
  | Var t a =>
      match x with
      | Zero => raise (ReflectError SetOnZeroValue)
      | Copy y =>
          if decide (type_of y = t) then store a y
          else raise (ReflectError (SetNotAssignable (type_of y) t))
      | Var t' b =>
          if decide (t' = t) then y ← load b; store a y
          else raise (ReflectError (SetNotAssignable t' t))
      end
  end.

End reflect.

(** [assign] of testing.go. *)
Definition assign (dest src : reflect.Value) : M World unit :=
  if bool_decide (reflect.Value_Kind dest = reflect.Ptr)
     && bool_decide (reflect.Value_Kind src = reflect.Ptr) then
    d ← reflect.Value_Elem dest; s ← reflect.Value_Elem src; reflect.Value_Set d s
  else if bool_decide (reflect.Value_Kind dest = reflect.Ptr)
     && bool_decide (reflect.Value_Kind src ≠ reflect.Ptr) then
    d ← reflect.Value_Elem dest; reflect.Value_Set d src
  else if bool_decide (reflect.Value_Kind dest ≠ reflect.Ptr)
     && bool_decide (reflect.Value_Kind src = reflect.Ptr) then
    s ← reflect.Value_Elem src; reflect.Value_Set dest s
  else if bool_decide (reflect.Value_Kind dest ≠ reflect.Ptr)
     && bool_decide (reflect.Value_Kind src ≠ reflect.Ptr) then
    s ← reflect.Value_Elem src; reflect.Value_Set dest s
  else mret tt.

(** What [assign] reads from its source: the variable a pointer points to,
    or the value itself when it is not a pointer; and the type of that. *)
Definition held_value (x : any) (w : World) : option value :=
  match x with
  | Some (VPtr _ (Some b)) => heap w !! b
  | Some (VPtr _ None) => None
  | Some v => Some v
  | None => None
  end.

Definition held_type (x : any) : option gotype :=
  match x with
  | Some (VPtr t _) => Some t
  | Some v => Some (type_of v)
  | None => None
  end.

(** ** The ORM's side: contexts, results, models and queries *)

Inductive Context :=
  | Background
  | WithValue (parent : Context) (key val : string).

(** [MockQueryResult] of testing.go, the [sql.Result] of this package. *)
Record MockQueryResult := mkMockQueryResult {
  LastInsertIdValue : Z;
  LastInsertIdError : error;
  RowsAffectedValue : Z;
  RowsAffectedError : error;
}.

Definition LastInsertId (r : MockQueryResult) : Z * error :=
  (LastInsertIdValue r, LastInsertIdError r).

Definition RowsAffected (r : MockQueryResult) : Z * error :=
  (RowsAffectedValue r, RowsAffectedError r).

(** An interface value of type [sql.Result]: [None] is nil. *)
Notation sql_Result := (option MockQueryResult) (only parsing).

(** [bun.Model], of which only [Value()] is used. *)
Record Model := mkModel { Value : any }.

(** The query interfaces of bunoffe.go.  [GetModel] is the getter bun
    implements: it reads the model registered with [.Model(&m)] and yields a
    nil interface when none was registered. *)
Record ExecQuery := mkExecQuery {
  ExecQuery_Exec : Context -> list any -> M World (sql_Result * error);
  ExecQuery_GetModel : option Model;
}.

Record ScanQuery := mkScanQuery {
  ScanQuery_Scan : Context -> list any -> M World error;
  ScanQuery_GetModel : option Model;
}.

Record ExistsQuery := mkExistsQuery {
  ExistsQuery_Exists : Context -> M World (bool * error);
  ExistsQuery_GetModel : option Model;
}.

(** [q.GetModel().Value()]: calling [Value] on a nil [bun.Model] panics. *)
Definition model_value (m : option Model) : M World any :=
  match m with
  | Some m => mret (Value m)
  | None => raise (RuntimeError NilDereference)
  end.

(** ** The executors *)

(** The [Executor] interface, over the state [E] of its receiver. *)
Class Executor (E : Type) := {
  Exec : Context -> ExecQuery -> list any -> M (E * World) (sql_Result * error);
  Scan : Context -> ScanQuery -> list any -> M (E * World) error;
  Exists : Context -> ExistsQuery -> M (E * World) (bool * error);
}.

(** Run a computation on one component of a pair of states. *)
Definition on_fst {S T A} (m : M S A) : M (S * T) A := fun st =>
  let (r, s') := m (fst st) in (r, (s', snd st)).

Definition on_snd {S T A} (m : M T A) : M (S * T) A := fun st =>
  let (r, t') := m (snd st) in (r, (fst st, t')).

(** *** QueryRealizer (bunoffe.go) *)

Inductive QueryRealizer : Set := mkQueryRealizer.

Definition QueryRealizer_Exec (r : QueryRealizer) (ctx : Context)
    (q : ExecQuery) (args : list any) : M World (sql_Result * error) :=
  ExecQuery_Exec q ctx args.

Definition QueryRealizer_Scan (r : QueryRealizer) (ctx : Context)
    (q : ScanQuery) (args : list any) : M World error :=
  ScanQuery_Scan q ctx args.

Definition QueryRealizer_Exists (r : QueryRealizer) (ctx : Context)
    (q : ExistsQuery) : M World (bool * error) :=
  ExistsQuery_Exists q ctx.

Global Instance QueryRealizer_Executor : Executor QueryRealizer := {
  Exec ctx q args st := on_snd (QueryRealizer_Exec (fst st) ctx q args) st;
  Scan ctx q args st := on_snd (QueryRealizer_Scan (fst st) ctx q args) st;
  Exists ctx q st := on_snd (QueryRealizer_Exists (fst st) ctx q) st;
}.

(** Running a query directly, which the documentation of QueryRealizer
    says its methods are equivalent to: [query.Exec(ctx, args...)],
    [query.Scan(ctx, args...)], [query.Exists(ctx)]. *)
Definition direct_Exec (ctx : Context) (q : ExecQuery) (args : list any)
    : M World (sql_Result * error) :=
  fun w => ExecQuery_Exec q ctx args w.

Definition direct_Scan (ctx : Context) (q : ScanQuery) (args : list any)
    : M World error :=
  fun w => ScanQuery_Scan q ctx args w.

Definition direct_Exists (ctx : Context) (q : ExistsQuery) : M World (bool * error) :=
  fun w => ExistsQuery_Exists q ctx w.

(** *** MockQueryExecutor (testing.go) *)

Record MockExecOperation := mkMockExecOperation {
  exec_Model : any;
  exec_Args : list any;
  exec_Result : sql_Result;
  exec_Error : error;
}.

Record MockScanOperation := mkMockScanOperation {
  scan_Model : any;
  scan_Args : list any;
  scan_Error : error;
}.

Record MockExistsOperation := mkMockExistsOperation {
  exists_Exists : bool;
  exists_Error : error;
}.

(** An interface value of type [MockedQueryOperation]: nil, one of the
    three operation structs, or a value of any other type that has the
    method [doNothing] (a pointer to one of the structs, a struct embedding
    one), of which only the name [%T] prints is kept. *)
Inductive MockedQueryOperation :=
  | NilOperation
  | ExecOperation (op : MockExecOperation)
  | ScanOperation (op : MockScanOperation)
  | ExistsOperation (op : MockExistsOperation)
  | OtherOperation (type_name : string).

Record MockQueryExecutor := mkMockQueryExecutor {
  Ops : list MockedQueryOperation;
  idx : Z;
}.

(** What [fmt]'s verb [%T] prints for an operation. *)
Definition type_name_of (nop : MockedQueryOperation) : string :=
  match nop with
  | NilOperation => "<nil>"
  | ExecOperation _ => "bunoffe.MockExecOperation"
  | ScanOperation _ => "bunoffe.MockScanOperation"
  | ExistsOperation _ => "bunoffe.MockExistsOperation"
  | OtherOperation name => name
  end.

(** Is the operation of the type the method asks for? *)
Definition is_exec (nop : MockedQueryOperation) : bool :=
  match nop with ExecOperation _ => true | _ => false end.

Definition is_scan (nop : MockedQueryOperation) : bool :=
  match nop with ScanOperation _ => true | _ => false end.

Definition is_exists (nop : MockedQueryOperation) : bool :=
  match nop with ExistsOperation _ => true | _ => false end.

(** The Error field of an operation, for the three structs that have one. *)
Definition operation_Error (nop : MockedQueryOperation) : error :=
  match nop with
  | ExecOperation op => exec_Error op
  | ScanOperation op => scan_Error op
  | ExistsOperation op => exists_Error op
  | _ => None
  end.

Definition opCastError (expected : string) (found : MockedQueryOperation) : string :=
  "expected '" +:+ expected +:+ "' operation, but found '" +:+ type_name_of found +:+ "'".

(** The message of the panic [nextOp] raises on an exhausted script. *)
Definition exhausted_message (i n : Z) : string :=
  "mocked query requested operation #" +:+ pretty i
    +:+ ", but test only contains " +:+ pretty n.

Definition args_length_message : string :=
  "operation.Args and args should have the same length".

(** A panic raised by the Go runtime or by package [reflect], as opposed to
    one of this package's own [panic(s)]. *)
Definition library_panic (p : panic) : Prop :=
  match p with
  | PanicValue _ => False
  | _ => True
  end.

(** The panic [nextOp] raises on an exhausted script. *)
Definition exhaustion_panic {A} (r : result A) : Prop :=
  exists i n, r = Panicked (PanicValue (exhausted_message i n)).

(** The panic a method raises when the operation is of the wrong type. *)
Definition cast_panic {A} (r : result A) : Prop :=
  exists expected found, r = Panicked (PanicValue (opCastError expected found)).

Definition nextOp : M MockQueryExecutor MockedQueryOperation := fun ex =>
  if bool_decide (len (Ops ex) <= idx ex) then
    (Panicked (PanicValue (exhausted_message (idx ex) (len (Ops ex)))), ex)
  else
    let ex' := mkMockQueryExecutor (Ops ex) (int_add (idx ex) 1) in
    match index (Ops ex') (int_sub (idx ex') 1) with
    | Some nop => (Return nop, ex')
    | None => (Panicked (RuntimeError IndexOutOfRange), ex')
    end.

(** [for i, val := range vals { assign(reflect.ValueOf(args[i]),
    reflect.ValueOf(val)) }], entered at index [i]. *)
Fixpoint assign_args (args : list any) (i : nat) (vals : list any) : M World unit :=
  match vals with
  | [] => mret tt
  | val :: rest =>
      match args !! i with
      | None => raise (RuntimeError IndexOutOfRange)
      | Some a =>
          assign (reflect.ValueOf a) (reflect.ValueOf val);;
          assign_args args (S i) rest
      end
  end.

(** "Each args[i] is assigned the value of vals[i]", said without
    [reflect]: both lists have the same length, every [args[i]] is a non-nil
    pointer to a variable, [vals[i]] holds a value of that variable's type,
    and the writes happen in order.  [None] when that is not the case. *)
Fixpoint assign_each (args vals : list any) (w : World) : option World :=
  match args, vals with
  | [], [] => Some w
  | Some (VPtr t (Some a)) :: args', x :: vals' =>
      match heap w !! a, held_type x, held_value x w with
      | Some _, Some t', Some v =>
          if decide (t' = t) then assign_each args' vals' (write a v w) else None
      | _, _, _ => None
      end
  | _, _ => None
  end.

(** Does the interface value hold a pointer to the variable at [a]? *)
Definition points_to (x : any) (a : loc) : Prop :=
  exists t, x = Some (VPtr t (Some a)).

Definition is_pointer (v : value) : bool :=
  match v with VPtr _ _ => true | _ => false end.

(** The model step of [Exec]:
    [if op.Model != nil { assign(ValueOf(op.Model), ValueOf(q.GetModel().Value())) }]. *)
Definition Exec_model_step (op : MockExecOperation) (q : ExecQuery) : M World unit :=
  match exec_Model op with
  | Some _ =>
      v ← model_value (ExecQuery_GetModel q);
      assign (reflect.ValueOf (exec_Model op)) (reflect.ValueOf v)
  | None => mret tt
  end.

(** The model step of [Scan]:
    [if op.Model != nil { assign(ValueOf(q.GetModel().Value()), ValueOf(op.Model)) }]. *)
Definition Scan_model_step (op : MockScanOperation) (q : ScanQuery) : M World unit :=
  match scan_Model op with
  | Some _ =>
      v ← model_value (ScanQuery_GetModel q);
      assign (reflect.ValueOf v) (reflect.ValueOf (scan_Model op))
  | None => mret tt
  end.

(** The rest of [Exec]: the length check, the loop over [op.Args] and the
    return. *)
Definition Exec_args_step (op : MockExecOperation) (args : list any)
    : M World (sql_Result * error) :=
  if bool_decide (0 < len (exec_Args op))
     && bool_decide (len (exec_Args op) ≠ len args)
  then raise (PanicValue args_length_message)
  else
    assign_args args 0 (exec_Args op);;
    mret (exec_Result op, None).

(** The rest of [Scan]: the loop over [op.Args] and the return. *)
Definition Scan_args_step (op : MockScanOperation) (args : list any) : M World error :=
  assign_args args 0 (scan_Args op);;
  mret None.

(** The values [Exec] hands back when it returns. *)
Definition Exec_scripted (op : MockExecOperation) : sql_Result * error :=
  match exec_Error op with
  | Some e => (None, Some e)
  | None => (exec_Result op, None)
  end.

(** The body of [Exec] after [nop := ex.nextOp()]. *)
Definition Exec_operation (nop : MockedQueryOperation) (q : ExecQuery)
    (args : list any) : M World (sql_Result * error) :=
  match nop with
  | ExecOperation op =>
      match exec_Error op with
      | Some e => mret (None, Some e)
      | None =>
          Exec_model_step op q;;
          Exec_args_step op args
      end
  | _ => raise (PanicValue (opCastError "MockExec" nop))
  end.

Definition MockQueryExecutor_Exec (ctx : Context) (q : ExecQuery)
    (args : list any) : M (MockQueryExecutor * World) (sql_Result * error) :=
  nop ← on_fst nextOp; on_snd (Exec_operation nop q args).

(** The body of [Scan] after [nop := ex.nextOp()]. *)
Definition Scan_operation (nop : MockedQueryOperation) (q : ScanQuery)
    (args : list any) : M World error :=
  match nop with
  | ScanOperation op =>
      match scan_Error op with
      | Some e => mret (Some e)
      | None =>
          Scan_model_step op q;;
          Scan_args_step op args
      end
  | _ => raise (PanicValue (opCastError "MockScan" nop))
  end.

Definition MockQueryExecutor_Scan (ctx : Context) (q : ScanQuery)
    (args : list any) : M (MockQueryExecutor * World) error :=
  nop ← on_fst nextOp; on_snd (Scan_operation nop q args).

(** The body of [Exists] after [nop := ex.nextOp()]. *)
Definition Exists_operation (nop : MockedQueryOperation) (q : ExistsQuery)
    : M World (bool * error) :=
  match nop with
  | ExistsOperation op =>
      match exists_Error op with
      | Some e => mret (false, Some e)
      | None => mret (exists_Exists op, None)
      end
  | _ => raise (PanicValue (opCastError "MockExists" nop))
  end.

Definition MockQueryExecutor_Exists (ctx : Context) (q : ExistsQuery)
    : M (MockQueryExecutor * World) (bool * error) :=
  nop ← on_fst nextOp; on_snd (Exists_operation nop q).

Global Instance MockQueryExecutor_Executor : Executor MockQueryExecutor := {
  Exec := MockQueryExecutor_Exec;
  Scan := MockQueryExecutor_Scan;
  Exists := MockQueryExecutor_Exists;
}.

(** ** Sequences of calls *)

Inductive Call :=
  | CallExec (ctx : Context) (q : ExecQuery) (args : list any)
  | CallScan (ctx : Context) (q : ScanQuery) (args : list any)
  | CallExists (ctx : Context) (q : ExistsQuery).

(** What a call hands back to its caller. *)
Inductive Returned :=
  | ExecReturned (r : sql_Result) (e : error)
  | ScanReturned (e : error)
  | ExistsReturned (b : bool) (e : error).

Definition map_result {S A B} (f : A -> B) (m : M S A) : M S B :=
  a ← m; mret (f a).

Definition call (c : Call) : M (MockQueryExecutor * World) Returned :=
  match c with
  | CallExec ctx q args =>
      map_result (fun r => ExecReturned r.1 r.2) (MockQueryExecutor_Exec ctx q args)
  | CallScan ctx q args =>
      map_result ScanReturned (MockQueryExecutor_Scan ctx q args)
  | CallExists ctx q =>
      map_result (fun r => ExistsReturned r.1 r.2) (MockQueryExecutor_Exists ctx q)
  end.

(** The part of a call that comes after [ex.nextOp()], given the operation
    that [nextOp] returned. *)
Definition call_operation (nop : MockedQueryOperation) (c : Call) : M World Returned :=
  match c with
  | CallExec ctx q args =>
      map_result (fun r => ExecReturned r.1 r.2) (Exec_operation nop q args)
  | CallScan ctx q args =>
      map_result ScanReturned (Scan_operation nop q args)
  | CallExists ctx q =>
      map_result (fun r => ExistsReturned r.1 r.2) (Exists_operation nop q)
  end.

(** A test's calls one after the other, each one recovered from if it
    panics, as the repository's test does with [assert.Panics]. *)
Fixpoint run (cs : list Call) (st : MockQueryExecutor * World)
    : list (result Returned) * (MockQueryExecutor * World) :=
  match cs with
  | [] => ([], st)
  | c :: cs' =>
      let (r, st') := call c st in
      let (rs, st'') := run cs' st' in
      (r :: rs, st'')
  end.

(** A mock as a test writes it: [MockQueryExecutor{Ops: ops}]. *)
Definition new_mock (ops : list MockedQueryOperation) : MockQueryExecutor :=
  mkMockQueryExecutor ops 0.

(** A slice never has more than [max_int] elements. *)
Definition slice_ok {A} (s : list A) : Prop := len s <= max_int.

(** ** Bunoffe (bunoffe.go)

    The query builders belong to bun, not to this repository, and are taken
    as given: the four kinds of query [bun.IDB] starts, the builder methods
    Bunoffe chains on them, and each built query seen through the query
    interfaces of this package. *)
Record IDB := mkIDB {
  SelectQuery : Type;
  InsertQuery : Type;
  UpdateQuery : Type;
  DeleteQuery : Type;
  NewSelect : SelectQuery;
  NewInsert : InsertQuery;
  NewUpdate : UpdateQuery;
  NewDelete : DeleteQuery;
  SelectQuery_Model : SelectQuery -> any -> SelectQuery;
  SelectQuery_Where : SelectQuery -> string -> list any -> SelectQuery;
  SelectQuery_WherePK : SelectQuery -> list string -> SelectQuery;
  InsertQuery_Model : InsertQuery -> any -> InsertQuery;
  UpdateQuery_Model : UpdateQuery -> any -> UpdateQuery;
  DeleteQuery_Model : DeleteQuery -> any -> DeleteQuery;
  DeleteQuery_WherePK : DeleteQuery -> list string -> DeleteQuery;
  SelectQuery_ExecQuery : SelectQuery -> ExecQuery;
  SelectQuery_ScanQuery : SelectQuery -> ScanQuery;
  SelectQuery_ExistsQuery : SelectQuery -> ExistsQuery;
  InsertQuery_ExecQuery : InsertQuery -> ExecQuery;
  UpdateQuery_ExecQuery : UpdateQuery -> ExecQuery;
  DeleteQuery_ExecQuery : DeleteQuery -> ExecQuery;
}.

(** [Bunoffe{X, DB}], over the state [E] of the executor in [X]. *)
Record Bunoffe (E : Type) := mkBunoffe {
  Bunoffe_X : Executor E;
  Bunoffe_DB : IDB;
}.
Arguments mkBunoffe {E} _ _.
Arguments Bunoffe_X {E} _.
Arguments Bunoffe_DB {E} _.

Definition Bunoffe_ScanWhere {E} (b : Bunoffe E) (ctx : Context) (model : any)
    (cond : string) (condArgs : list any) : M (E * World) error :=
  let db := Bunoffe_DB b in
  @Scan E (Bunoffe_X b) ctx
    (SelectQuery_ScanQuery db
       (SelectQuery_Where db (SelectQuery_Model db (NewSelect db) model) cond condArgs))
    [].

Definition Bunoffe_ScanWherePK {E} (b : Bunoffe E) (ctx : Context) (model : any)
    (pks : list string) : M (E * World) error :=
  let db := Bunoffe_DB b in
  @Scan E (Bunoffe_X b) ctx
    (SelectQuery_ScanQuery db
       (SelectQuery_WherePK db (SelectQuery_Model db (NewSelect db) model) pks))
    [].

Definition Bunoffe_SelectWhere {E} (b : Bunoffe E) (ctx : Context) (model : any)
    (cond : string) (args : list any) : M (E * World) (sql_Result * error) :=
  let db := Bunoffe_DB b in
  @Exec E (Bunoffe_X b) ctx
    (SelectQuery_ExecQuery db
       (SelectQuery_Where db (SelectQuery_Model db (NewSelect db) model) cond args))
    [].

Definition Bunoffe_SelectWherePK {E} (b : Bunoffe E) (ctx : Context) (model : any)
    (pks : list string) : M (E * World) (sql_Result * error) :=
  let db := Bunoffe_DB b in
  @Exec E (Bunoffe_X b) ctx
    (SelectQuery_ExecQuery db
       (SelectQuery_WherePK db (SelectQuery_Model db (NewSelect db) model) pks))
    [].

Definition Bunoffe_ExistsWhere {E} (b : Bunoffe E) (ctx : Context) (model : any)
    (cond : string) (condArgs : list any) : M (E * World) (bool * error) :=
  let db := Bunoffe_DB b in
  @Exists E (Bunoffe_X b) ctx
    (SelectQuery_ExistsQuery db
       (SelectQuery_Where db (SelectQuery_Model db (NewSelect db) model) cond condArgs)).

Definition Bunoffe_ExistsWherePK {E} (b : Bunoffe E) (ctx : Context) (model : any)
    (pks : list string) : M (E * World) (bool * error) :=
  let db := Bunoffe_DB b in
  @Exists E (Bunoffe_X b) ctx
    (SelectQuery_ExistsQuery db
       (SelectQuery_WherePK db (SelectQuery_Model db (NewSelect db) model) pks)).

Definition Bunoffe_Insert {E} (b : Bunoffe E) (ctx : Context) (model : any)
    : M (E * World) (sql_Result * error) :=
  let db := Bunoffe_DB b in
  @Exec E (Bunoffe_X b) ctx
    (InsertQuery_ExecQuery db (InsertQuery_Model db (NewInsert db) model)) [].

Definition Bunoffe_Update {E} (b : Bunoffe E) (ctx : Context) (model : any)
    : M (E * World) (sql_Result * error) :=
  let db := Bunoffe_DB b in
  @Exec E (Bunoffe_X b) ctx
    (UpdateQuery_ExecQuery db (UpdateQuery_Model db (NewUpdate db) model)) [].

Definition Bunoffe_DeleteWherePK {E} (b : Bunoffe E) (ctx : Context) (model : any)
    (pks : list string) : M (E * World) (sql_Result * error) :=
  let db := Bunoffe_DB b in
  @Exec E (Bunoffe_X b) ctx
    (DeleteQuery_ExecQuery db
       (DeleteQuery_WherePK db (DeleteQuery_Model db (NewDelete db) model) pks))
    [].

(** A Bunoffe whose executor is the mock. *)
Definition mocked (db : IDB) : Bunoffe MockQueryExecutor :=
  mkBunoffe MockQueryExecutor_Executor db.

(** The queries Bunoffe builds on [db] with [.Model(model)] hand [model]
    back from [GetModel().Value()], as bun does for a pointer to a struct. *)
Definition registers_model (db : IDB) (model : any) : Prop :=
  (forall cond args,
     ScanQuery_GetModel (SelectQuery_ScanQuery db
       (SelectQuery_Where db (SelectQuery_Model db (NewSelect db) model) cond args))
     = Some (mkModel model))
  /\ (forall pks,
     ScanQuery_GetModel (SelectQuery_ScanQuery db
       (SelectQuery_WherePK db (SelectQuery_Model db (NewSelect db) model) pks))
     = Some (mkModel model))
  /\ ExecQuery_GetModel (InsertQuery_ExecQuery db
       (InsertQuery_Model db (NewInsert db) model))
     = Some (mkModel model).

(** The call did not return: it ended in a panic. *)
Definition panics {S A} (out : result A * S) : Prop :=
  exists p, out.1 = Panicked p.

(** ** Shapes and types of the heap *)

(** The Args field of an operation, for the two structs that have one. *)
Definition operation_Args (nop : MockedQueryOperation) : list any :=
  match nop with
  | ExecOperation op => exec_Args op
  | ScanOperation op => scan_Args op
  | _ => []
  end.

(** The Model field of an operation, for the two structs that have one. *)
Definition operation_Model (nop : MockedQueryOperation) : any :=
  match nop with
  | ExecOperation op => exec_Model op
  | ScanOperation op => scan_Model op
  | _ => None
  end.

(** Two worlds with the same variables and the same database. *)
Definition same_shape (w w' : World) : Prop :=
  dom (heap w') = dom (heap w) /\ db w' = db w.

(** The declared types of the variables: every variable holds a value of
    its type, and a pointer of type [*T] points to a variable of type [T]. *)
Definition heap_typed (sigma : gmap loc gotype) (w : World) : Prop :=
  forall a v, heap w !! a = Some v -> sigma !! a = Some (type_of v).

Definition any_typed (sigma : gmap loc gotype) (x : any) : Prop :=
  forall t b, x = Some (VPtr t (Some b)) -> sigma !! b = Some t.

Definition operation_typed (sigma : gmap loc gotype) (nop : MockedQueryOperation) : Prop :=
  any_typed sigma (operation_Model nop) /\ Forall (any_typed sigma) (operation_Args nop).

Definition model_typed (sigma : gmap loc gotype) (m : option Model) : Prop :=
  forall m', m = Some m' -> any_typed sigma (Value m').

Definition call_typed (sigma : gmap loc gotype) (c : Call) : Prop :=
  match c with
  | CallExec _ q args => model_typed sigma (ExecQuery_GetModel q) /\ Forall (any_typed sigma) args
  | CallScan _ q args => model_typed sigma (ScanQuery_GetModel q) /\ Forall (any_typed sigma) args
  | CallExists _ _ => True
  end.

(** ** The repository's test, as a fixture *)

Module TestMocks.

Definition model (s : string) (i : Z) : value :=
  VStruct "bunoffe.model" [VString s; VInt i].

Definition m_loc : loc := 0%nat.
Definition n_loc : loc := 1%nat.
Definition s_loc : loc := 2%nat.
Definition f_loc : loc := 3%nat.

Definition ptr (t : gotype) (a : loc) : any := Some (VPtr t (Some a)).

Definition m_ptr : any := ptr (TStruct "bunoffe.model") m_loc.
Definition n_ptr : any := ptr (TStruct "bunoffe.model") n_loc.
Definition s_ptr : any := ptr TString s_loc.
Definition f_ptr : any := ptr TFloat64 f_loc.

Definition pi_bits : Z := 4614253070214989087.  (* float64 3.14 *)

Definition world0 : World :=
  mkWorld
    (<[m_loc := model "Hello, world!" 33]>
     (<[n_loc := model "" 0]>
      (<[s_loc := VString ""]>
       (<[f_loc := VFloat64 0]> ∅))))
    [].

Definition an_error : error := Some "an error".

Definition result_ : MockQueryResult := mkMockQueryResult 10 None 11 None.

(** A query on the mocked database: none of its three actions is ever
    meant to run; if one did, it would leave a statement in [db]. *)
Definition touch_db {A} (stmt : string) (a : A) : M World A := fun w =>
  (Return a, mkWorld (heap w) (stmt :: db w)).

Definition insert_query (model : any) : ExecQuery :=
  mkExecQuery (fun _ _ => touch_db "INSERT" (None, None)) (Some (mkModel model)).

Definition select_scan (model : any) : ScanQuery :=
  mkScanQuery (fun _ _ => touch_db "SELECT" None) (Some (mkModel model)).

Definition select_exists (model : any) : ExistsQuery :=
  mkExistsQuery (fun _ => touch_db "SELECT EXISTS" (true, None)) (Some (mkModel model)).

Definition exec_ops : list MockedQueryOperation :=
  [ ScanOperation (mkMockScanOperation None [] None);
    ExecOperation (mkMockExecOperation None [] None an_error);
    ExecOperation (mkMockExecOperation m_ptr [] (Some result_) None);
    ExecOperation (mkMockExecOperation None
      [Some (VString "hadouken"); Some (VFloat64 pi_bits)] None None) ].

Definition exec_calls : list Call :=
  [ CallExec Background (insert_query n_ptr) [];
    CallExec Background (insert_query n_ptr) [];
    CallExec Background (insert_query n_ptr) [];
    CallExec Background (insert_query n_ptr) [s_ptr; f_ptr] ].

Definition scan_ops : list MockedQueryOperation :=
  [ ExecOperation (mkMockExecOperation None [] None None);
    ScanOperation (mkMockScanOperation None [] an_error);
    ScanOperation (mkMockScanOperation m_ptr [] None);
    ScanOperation (mkMockScanOperation m_ptr
      [Some (VString "hadouken"); Some (VFloat64 pi_bits)] None) ].

Definition scan_calls : list Call :=
  [ CallScan Background (select_scan n_ptr) [];
    CallScan Background (select_scan n_ptr) [];
    CallScan Background (select_scan n_ptr) [];
    CallScan Background (select_scan n_ptr) [s_ptr; f_ptr] ].

Definition exists_ops : list MockedQueryOperation :=
  [ ExecOperation (mkMockExecOperation None [] None None);
    ExistsOperation (mkMockExistsOperation false an_error);
    ExistsOperation (mkMockExistsOperation true None);
    ExistsOperation (mkMockExistsOperation false None) ].

Definition exists_calls : list Call :=
  [ CallExists Background (select_exists n_ptr);
    CallExists Background (select_exists n_ptr);
    CallExists Background (select_exists n_ptr);
    CallExists Background (select_exists n_ptr) ].

(** What bun keeps of [.Model(model)]: a pointer to a struct is registered
    and handed back by [GetModel().Value()]; for a nil model, a value passed
    instead of its address or a pointer to a scalar the query records an
    error and keeps no model. *)
Definition bun_model (model : any) : option Model :=
  match model with
  | Some (VPtr (TStruct _) _) => Some (mkModel model)
  | _ => None
  end.

(** A stand-in for bun on the mocked database: a built query remembers what
    it was given as model, and its own actions would leave a statement in
    [db]. *)
Definition bundb : IDB :=
  mkIDB (option value) (option value) (option value) (option value)
    None None None None
    (fun _ model => model) (fun q _ _ => q) (fun q _ => q)
    (fun _ model => model) (fun _ model => model) (fun _ model => model) (fun q _ => q)
    (fun q => mkExecQuery (fun _ _ => touch_db "SELECT" (None, None)) (bun_model q))
    (fun q => mkScanQuery (fun _ _ => touch_db "SELECT" None) (bun_model q))
    (fun q => mkExistsQuery (fun _ => touch_db "SELECT EXISTS" (true, None)) (bun_model q))
    (fun q => mkExecQuery (fun _ _ => touch_db "INSERT" (None, None)) (bun_model q))
    (fun q => mkExecQuery (fun _ _ => touch_db "UPDATE" (None, None)) (bun_model q))
    (fun q => mkExecQuery (fun _ _ => touch_db "DELETE" (None, None)) (bun_model q)).

(** The declared types of the test's variables [m], [n], [s] and [f]. *)
Definition sigma0 : gmap loc gotype :=
  <[m_loc := TStruct "bunoffe.model"]>
  (<[n_loc := TStruct "bunoffe.model"]>
   (<[s_loc := TString]>
    (<[f_loc := TFloat64]> ∅))).

End TestMocks.

(** * Properties *)

(** ** The repository's test

    [TestMocks] on the embedding: the outcome of each of the four calls of
    its three subtests, and what the test then finds in [n], [s] and [f]. *)

Example test_exec :
  let out := run TestMocks.exec_calls (new_mock TestMocks.exec_ops, TestMocks.world0) in
  out.1 = [ Panicked (PanicValue
              "expected 'MockExec' operation, but found 'bunoffe.MockScanOperation'");
            Return (ExecReturned None (Some "an error"));
            Return (ExecReturned (Some TestMocks.result_) None);
            Return (ExecReturned None None) ]
  /\ heap out.2.2 !! TestMocks.n_loc = heap out.2.2 !! TestMocks.m_loc
  /\ heap out.2.2 !! TestMocks.s_loc = Some (VString "hadouken")
  /\ heap out.2.2 !! TestMocks.f_loc = Some (VFloat64 TestMocks.pi_bits).
Proof. vm_compute. split_and!; reflexivity. Qed.

Example test_scan :
  let out := run TestMocks.scan_calls (new_mock TestMocks.scan_ops, TestMocks.world0) in
  out.1 = [ Panicked (PanicValue
              "expected 'MockScan' operation, but found 'bunoffe.MockExecOperation'");
            Return (ScanReturned (Some "an error"));
            Return (ScanReturned None);
            Return (ScanReturned None) ]
  /\ heap out.2.2 !! TestMocks.n_loc = Some (TestMocks.model "Hello, world!" 33)
  /\ heap out.2.2 !! TestMocks.s_loc = Some (VString "hadouken")
  /\ heap out.2.2 !! TestMocks.f_loc = Some (VFloat64 TestMocks.pi_bits).
Proof. vm_compute. split_and!; reflexivity. Qed.

Example test_exists :
  let out := run TestMocks.exists_calls (new_mock TestMocks.exists_ops, TestMocks.world0) in
  out.1 = [ Panicked (PanicValue
              "expected 'MockExists' operation, but found 'bunoffe.MockExecOperation'");
            Return (ExistsReturned false (Some "an error"));
            Return (ExistsReturned true None);
            Return (ExistsReturned false None) ]
  /\ out.2.2 = TestMocks.world0.
Proof. vm_compute. split_and!; reflexivity. Qed.

(** ** Integers and slices *)

Lemma wrap_in_range z : - 2 ^ 63 <= z <= max_int -> wrap z = z.
Proof.
  unfold wrap, max_int. intros Hz.
  rewrite Z.mod_small by lia. lia.
Qed.

Lemma index_lookup {A} (s : list A) (i : nat) : index s (Z.of_nat i) = s !! i.
Proof.
  unfold index. rewrite bool_decide_eq_false_2 by lia. by rewrite Nat2Z.id.
Qed.

Lemma lookup_lt_len {A} (s : list A) (i : nat) (x : A) :
  s !! i = Some x -> Z.of_nat i < len s.
Proof. intros H. apply lookup_lt_Some in H. unfold len. lia. Qed.

(** ** The monad *)

Lemma bind_return {S A B} (m : M S A) (k : A -> M S B) s a s' :
  m s = (Return a, s') -> (m ≫= k) s = k a s'.
Proof. unfold mbind, M_bind. by intros ->. Qed.

Lemma bind_panicked {S A B} (m : M S A) (k : A -> M S B) s p s' :
  m s = (Panicked p, s') -> (m ≫= k) s = (Panicked p, s').
Proof. unfold mbind, M_bind. by intros ->. Qed.

Lemma map_result_eq {S A B} (f : A -> B) (m : M S A) s :
  map_result f m s =
    match m s with
    | (Return a, s') => (Return (f a), s')
    | (Panicked p, s') => (Panicked p, s')
    end.
Proof. unfold map_result, mbind, M_bind. by destruct (m s) as [[?|?] ?]. Qed.

(** ** [nextOp] *)

Lemma nextOp_exhausted ex :
  len (Ops ex) <= idx ex ->
  nextOp ex = (Panicked (PanicValue (exhausted_message (idx ex) (len (Ops ex)))), ex).
Proof. intros H. unfold nextOp. by rewrite bool_decide_eq_true_2. Qed.

Lemma nextOp_next ops (i : nat) nop :
  slice_ok ops ->
  ops !! i = Some nop ->
  nextOp (mkMockQueryExecutor ops (Z.of_nat i))
  = (Return nop, mkMockQueryExecutor ops (Z.of_nat i + 1)).
Proof.
  intros Hok Hnop. pose proof (lookup_lt_len _ _ _ Hnop) as Hlt.
  unfold slice_ok in Hok. unfold nextOp. simpl.
  rewrite bool_decide_eq_false_2 by lia.
  unfold int_add, int_sub.
  rewrite (wrap_in_range (Z.of_nat i + 1)) by (unfold max_int in *; lia).
  replace (Z.of_nat i + 1 - 1) with (Z.of_nat i) by lia.
  rewrite wrap_in_range by (unfold max_int in *; lia).
  by rewrite index_lookup, Hnop.
Qed.

(** ** A call is [nextOp] followed by the operation's part *)

Lemma call_exhausted c ex w :
  len (Ops ex) <= idx ex ->
  call c (ex, w)
  = (Panicked (PanicValue (exhausted_message (idx ex) (len (Ops ex)))), (ex, w)).
Proof.
  intros H. pose proof (nextOp_exhausted ex H) as Hn.
  destruct c; simpl; rewrite map_result_eq;
    unfold MockQueryExecutor_Exec, MockQueryExecutor_Scan, MockQueryExecutor_Exists;
    (erewrite bind_panicked; [done|]); unfold on_fst; simpl; by rewrite Hn.
Qed.

Lemma call_next c ops (i : nat) nop w :
  slice_ok ops ->
  ops !! i = Some nop ->
  call c (mkMockQueryExecutor ops (Z.of_nat i), w)
  = ((call_operation nop c w).1,
     (mkMockQueryExecutor ops (Z.of_nat i + 1), (call_operation nop c w).2)).
Proof.
  intros Hok Hnop. pose proof (nextOp_next _ _ _ Hok Hnop) as Hn.
  destruct c; simpl; rewrite !map_result_eq;
    unfold MockQueryExecutor_Exec, MockQueryExecutor_Scan, MockQueryExecutor_Exists;
    (erewrite bind_return; [|unfold on_fst; simpl; by rewrite Hn]);
    unfold on_snd; simpl.
  - by destruct (Exec_operation nop q args w) as [[?|?] ?].
  - by destruct (Scan_operation nop q args w) as [[?|?] ?].
  - by destruct (Exists_operation nop q w) as [[?|?] ?].
Qed.

(** ** Which panics can come from where *)

Lemma exhausted_not_cast i n expected found :
  exhausted_message i n ≠ opCastError expected found.
Proof. unfold exhausted_message, opCastError. simpl. discriminate. Qed.

Lemma exhausted_not_args_length i n : exhausted_message i n ≠ args_length_message.
Proof. unfold exhausted_message, args_length_message. simpl. discriminate. Qed.

Lemma cast_not_args_length expected found :
  opCastError expected found ≠ args_length_message.
Proof. unfold opCastError, args_length_message. simpl. discriminate. Qed.

Lemma load_panic a w p w' : load a w = (Panicked p, w') -> library_panic p /\ w' = w.
Proof. unfold load. destruct (heap w !! a); intros [= <- <-]; done. Qed.

Lemma load_return a w v w' : load a w = (Return v, w') -> heap w !! a = Some v /\ w' = w.
Proof. unfold load. destruct (heap w !! a); intros [= <- <-]; done. Qed.

Lemma store_panic a v w p w' : store a v w = (Panicked p, w') -> library_panic p /\ w' = w.
Proof. unfold store. destruct (heap w !! a); intros [= <- <-]; done. Qed.

Lemma store_return a v w w' :
  store a v w = (Return tt, w') ->
  is_Some (heap w !! a) /\ w' = write a v w.
Proof. unfold store. destruct (heap w !! a) eqn:E; intros [= <-]; eauto. Qed.

Lemma elem_of_pointer_panic x w p w' :
  reflect.elem_of_pointer x w = (Panicked p, w') -> library_panic p /\ w' = w.
Proof. destruct x as [| | | | |? [?|]]; intros [= <- <-]; done. Qed.

Lemma elem_of_pointer_return x w v w' :
  reflect.elem_of_pointer x w = (Return v, w') -> w' = w.
Proof. destruct x as [| | | | |? [?|]]; intros [= <- <-]; done. Qed.

Lemma Value_Elem_panic v w p w' :
  reflect.Value_Elem v w = (Panicked p, w') -> library_panic p /\ w' = w.
Proof.
  destruct v as [|x|t a]; simpl.
  - intros [= <- <-]; done.
  - apply elem_of_pointer_panic.
  - destruct t; try (intros [= <- <-]; done).
    unfold mbind, M_bind. destruct (load a w) as [[y|q] w1] eqn:E.
    + apply load_return in E as [_ ->]. intros H.
      by apply elem_of_pointer_panic in H.
    + apply load_panic in E as [? ->]. intros [= <- <-]; done.
Qed.

Lemma Value_Elem_return v w x w' :
  reflect.Value_Elem v w = (Return x, w') -> w' = w.
Proof.
  destruct v as [|y|t a]; simpl.
  - intros [=].
  - apply elem_of_pointer_return.
  - destruct t; try (by intros [=]).
    unfold mbind, M_bind. destruct (load a w) as [[y|q] w1] eqn:E.
    + apply load_return in E as [_ ->]. intros H.
      by apply elem_of_pointer_return in H.
    + intros [=].
Qed.

Lemma Value_Set_panic v x w p w' :
  reflect.Value_Set v x w = (Panicked p, w') -> library_panic p /\ w' = w.
Proof.
  destruct v as [|y|t a]; simpl; try (intros [= <- <-]; done).
  destruct x as [|y|t' b]; try (intros [= <- <-]; done).
  - case_decide; [apply store_panic | intros [= <- <-]; done].
  - case_decide; [| intros [= <- <-]; done].
    unfold mbind, M_bind. destruct (load b w) as [[y|q] w1] eqn:E.
    + apply load_return in E as [_ ->]. intros Hs.
      by apply store_panic in Hs.
    + apply load_panic in E as [? ->]. intros [= <- <-]; done.
Qed.

(** [assign] is all or nothing: a panic leaves the world as it was, and
    never is one of this package's own. *)
Lemma assign_panic dest src w p w' :
  assign dest src w = (Panicked p, w') -> library_panic p /\ w' = w.
Proof.
  unfold assign.
  repeat case_match; unfold mbind, M_bind; intros Hrun;
    repeat match type of Hrun with
    | (match ?m ?s with _ => _ end) = _ =>
        let E := fresh "E" in destruct (m s) as [[?|?] ?] eqn:E;
        [ apply Value_Elem_return in E as -> | apply Value_Elem_panic in E as [? ->] ]
    end;
    try (injection Hrun as <- <-; done);
    try (by apply Value_Set_panic in Hrun);
    try discriminate Hrun.
Qed.

Lemma Value_Set_keeps_db v x w w' :
  reflect.Value_Set v x w = (Return tt, w') -> db w' = db w.
Proof.
  destruct v as [|?|t a]; try discriminate; destruct x as [|?|t' b]; try discriminate; simpl.
  - case_decide; [| discriminate]. by intros [_ ->]%store_return.
  - case_decide; [| discriminate]. unfold mbind, M_bind.
    destruct (load b w) as [[y|q] w1] eqn:E; [| discriminate].
    apply load_return in E as [_ ->]. by intros [_ ->]%store_return.
Qed.

Lemma assign_keeps_db dest src w r w' :
  assign dest src w = (r, w') -> db w' = db w.
Proof.
  destruct r as [[]|p]; [| by intros [_ ->]%assign_panic].
  unfold assign.
  repeat case_match; unfold mbind, M_bind; intros Hrun;
    repeat match type of Hrun with
    | (match ?m ?s with _ => _ end) = _ =>
        let E := fresh "E" in destruct (m s) as [[?|?] ?] eqn:E;
        [ apply Value_Elem_return in E as -> | discriminate Hrun ]
    end;
    try (by apply Value_Set_keeps_db in Hrun);
    try (injection Hrun as <-; done).
Qed.

(** When [assign] goes through, and what it then does: the destination is
    a non-nil pointer, the source holds a value of the pointed-to type, and
    that value is written to the pointer's target. *)
Lemma assign_ok t a x v w :
  is_Some (heap w !! a) ->
  held_type x = Some t ->
  held_value x w = Some v ->
  assign (reflect.ValueOf (Some (VPtr t (Some a)))) (reflect.ValueOf x) w
  = (Return tt, write a v w).
Proof.
  intros [old Ha] Ht Hv.
  destruct x as [[| | | | |t' [b|]]|]; simpl in Ht, Hv; try discriminate Hv;
    injection Ht as <-; unfold assign; simpl;
    unfold mbind, M_bind, mret, M_ret; simpl;
    rewrite ?decide_True by done; unfold load, store; simpl.
  1-5: injection Hv as <-; by rewrite Ha.
  unfold mbind, M_bind, load. rewrite Hv. unfold store. by rewrite Ha.
Qed.

Lemma assign_return dest src w w' :
  assign (reflect.ValueOf dest) (reflect.ValueOf src) w = (Return tt, w') ->
  exists t a v,
    dest = Some (VPtr t (Some a))
    /\ is_Some (heap w !! a)
    /\ held_type src = Some t
    /\ held_value src w = Some v
    /\ w' = write a v w.
Proof.
  destruct dest as [[| | | | |t [a|]]|];
    destruct src as [[| | | | |t' [l|]]|];
    unfold assign; simpl; unfold mbind, M_bind, mret, M_ret, raise; simpl;
    try discriminate;
    try (case_decide; [|discriminate]; subst;
         intros [Ha ->]%store_return; eexists _, a, _; by split_and!).
  case_decide; [|discriminate]. subst. unfold mbind, M_bind.
  destruct (load l w) as [[y|?] w1] eqn:E; [|discriminate].
  apply load_return in E as [Hl ->].
  intros [Ha ->]%store_return. eexists _, a, y. by split_and!.
Qed.

Lemma model_value_panic m w p w' :
  model_value m w = (Panicked p, w') -> library_panic p /\ w' = w.
Proof. destruct m; intros [= <- <-]; done. Qed.

Lemma model_value_return m w v w' :
  model_value m w = (Return v, w') -> (exists m', m = Some m' /\ v = Value m') /\ w' = w.
Proof. destruct m; intros [= <- <-]; eauto. Qed.

Lemma assign_args_panic args vals : forall i w p w',
  assign_args args i vals w = (Panicked p, w') -> library_panic p.
Proof.
  induction vals as [|val rest IH]; intros i w p w'; simpl; [discriminate|].
  destruct (args !! i) as [a|]; [| intros [= <- <-]; done].
  unfold mbind, M_bind.
  destruct (assign _ _ w) as [[[]|q] w1] eqn:E.
  - apply IH.
  - apply assign_panic in E as [? _]. by intros [= <- <-].
Qed.

Lemma assign_args_keeps_db args vals : forall i w r w',
  assign_args args i vals w = (r, w') -> db w' = db w.
Proof.
  induction vals as [|val rest IH]; intros i w r w'; simpl; [by intros [= <- <-]|].
  destruct (args !! i) as [a|]; [| by intros [= <- <-]].
  unfold mbind, M_bind.
  destruct (assign _ _ w) as [[[]|q] w1] eqn:E; apply assign_keeps_db in E.
  - intros ->%IH. done.
  - by intros [= <- <-].
Qed.

Lemma Exec_operation_mismatch nop q args w :
  is_exec nop = false ->
  Exec_operation nop q args w = (Panicked (PanicValue (opCastError "MockExec" nop)), w).
Proof. by destruct nop. Qed.

Lemma Scan_operation_mismatch nop q args w :
  is_scan nop = false ->
  Scan_operation nop q args w = (Panicked (PanicValue (opCastError "MockScan" nop)), w).
Proof. by destruct nop. Qed.

Lemma Exists_operation_mismatch nop q w :
  is_exists nop = false ->
  Exists_operation nop q w = (Panicked (PanicValue (opCastError "MockExists" nop)), w).
Proof. by destruct nop. Qed.

Lemma Exec_operation_unfold op q args :
  exec_Error op = None ->
  Exec_operation (ExecOperation op) q args =
    (Exec_model_step op q;;
     if bool_decide (0 < len (exec_Args op))
        && bool_decide (len (exec_Args op) ≠ len args)
     then raise (PanicValue args_length_message)
     else assign_args args 0 (exec_Args op);; mret (exec_Result op, None)).
Proof. intros H. unfold Exec_operation. by rewrite H. Qed.

Lemma Scan_operation_unfold op q args :
  scan_Error op = None ->
  Scan_operation (ScanOperation op) q args =
    (Scan_model_step op q;; assign_args args 0 (scan_Args op);; mret None).
Proof. intros H. unfold Scan_operation. by rewrite H. Qed.

Lemma Exec_model_step_panic op q w p w' :
  Exec_model_step op q w = (Panicked p, w') -> library_panic p /\ w' = w.
Proof.
  unfold Exec_model_step. destruct (exec_Model op); [| discriminate].
  unfold mbind, M_bind. destruct (model_value _ w) as [[qv|e] w1] eqn:E.
  - apply model_value_return in E as [_ ->]. apply assign_panic.
  - apply model_value_panic in E as [? ->]. by intros [= <- <-].
Qed.

Lemma Scan_model_step_panic op q w p w' :
  Scan_model_step op q w = (Panicked p, w') -> library_panic p /\ w' = w.
Proof.
  unfold Scan_model_step. destruct (scan_Model op); [| discriminate].
  unfold mbind, M_bind. destruct (model_value _ w) as [[qv|e] w1] eqn:E.
  - apply model_value_return in E as [_ ->]. apply assign_panic.
  - apply model_value_panic in E as [? ->]. by intros [= <- <-].
Qed.

Lemma Exec_model_step_keeps_db op q w r w' :
  Exec_model_step op q w = (r, w') -> db w' = db w.
Proof.
  unfold Exec_model_step. destruct (exec_Model op); [| by intros [= <- <-]].
  unfold mbind, M_bind. destruct (model_value _ w) as [[qv|e] w1] eqn:E.
  - apply model_value_return in E as [_ ->]. apply assign_keeps_db.
  - apply model_value_panic in E as [? ->]. by intros [= <- <-].
Qed.

Lemma Scan_model_step_keeps_db op q w r w' :
  Scan_model_step op q w = (r, w') -> db w' = db w.
Proof.
  unfold Scan_model_step. destruct (scan_Model op); [| by intros [= <- <-]].
  unfold mbind, M_bind. destruct (model_value _ w) as [[qv|e] w1] eqn:E.
  - apply model_value_return in E as [_ ->]. apply assign_keeps_db.
  - apply model_value_panic in E as [? ->]. by intros [= <- <-].
Qed.

(** Once the operation is of the right type, [Exec] can only panic with the
    length message or from the runtime or [reflect]. *)
Lemma Exec_operation_match_panic op q args w p w' :
  Exec_operation (ExecOperation op) q args w = (Panicked p, w') ->
  p = PanicValue args_length_message \/ library_panic p.
Proof.
  destruct (exec_Error op) as [e|] eqn:He.
  { unfold Exec_operation. rewrite He. discriminate. }
  rewrite Exec_operation_unfold by done. unfold mbind, M_bind.
  destruct (Exec_model_step op q w) as [[[]|e] w1] eqn:E.
  - case_match.
    + intros [= <- <-]. by left.
    + destruct (assign_args _ _ _ w1) as [[[]|e] w2] eqn:E2; [discriminate|].
      apply assign_args_panic in E2. intros [= <- <-]. by right.
  - apply Exec_model_step_panic in E as [? ->]. intros [= <- <-]. by right.
Qed.

Lemma Scan_operation_match_panic op q args w p w' :
  Scan_operation (ScanOperation op) q args w = (Panicked p, w') -> library_panic p.
Proof.
  destruct (scan_Error op) as [e|] eqn:He.
  { unfold Scan_operation. rewrite He. discriminate. }
  rewrite Scan_operation_unfold by done. unfold mbind, M_bind.
  destruct (Scan_model_step op q w) as [[[]|e] w1] eqn:E.
  - destruct (assign_args _ _ _ w1) as [[[]|e] w2] eqn:E2; [discriminate|].
    apply assign_args_panic in E2. by intros [= <- <-].
  - apply Scan_model_step_panic in E as [? ->]. by intros [= <- <-].
Qed.

Lemma Exists_operation_match op q w :
  Exists_operation (ExistsOperation op) q w
  = (Return (match exists_Error op with
             | Some e => (false, Some e)
             | None => (exists_Exists op, None)
             end), w).
Proof. unfold Exists_operation. by destruct (exists_Error op). Qed.

(** ** The three methods, one operation at a time *)

Lemma Exec_next ctx q args ops (i : nat) nop w :
  slice_ok ops ->
  ops !! i = Some nop ->
  MockQueryExecutor_Exec ctx q args (mkMockQueryExecutor ops (Z.of_nat i), w)
  = ((Exec_operation nop q args w).1,
     (mkMockQueryExecutor ops (Z.of_nat i + 1), (Exec_operation nop q args w).2)).
Proof.
  intros Hok Hnop. pose proof (nextOp_next _ _ _ Hok Hnop) as Hn.
  unfold MockQueryExecutor_Exec.
  erewrite bind_return; [|unfold on_fst; simpl; by rewrite Hn].
  unfold on_snd; simpl. by destruct (Exec_operation nop q args w).
Qed.

Lemma Scan_next ctx q args ops (i : nat) nop w :
  slice_ok ops ->
  ops !! i = Some nop ->
  MockQueryExecutor_Scan ctx q args (mkMockQueryExecutor ops (Z.of_nat i), w)
  = ((Scan_operation nop q args w).1,
     (mkMockQueryExecutor ops (Z.of_nat i + 1), (Scan_operation nop q args w).2)).
Proof.
  intros Hok Hnop. pose proof (nextOp_next _ _ _ Hok Hnop) as Hn.
  unfold MockQueryExecutor_Scan.
  erewrite bind_return; [|unfold on_fst; simpl; by rewrite Hn].
  unfold on_snd; simpl. by destruct (Scan_operation nop q args w).
Qed.

Lemma Exists_next ctx q ops (i : nat) nop w :
  slice_ok ops ->
  ops !! i = Some nop ->
  MockQueryExecutor_Exists ctx q (mkMockQueryExecutor ops (Z.of_nat i), w)
  = ((Exists_operation nop q w).1,
     (mkMockQueryExecutor ops (Z.of_nat i + 1), (Exists_operation nop q w).2)).
Proof.
  intros Hok Hnop. pose proof (nextOp_next _ _ _ Hok Hnop) as Hn.
  unfold MockQueryExecutor_Exists.
  erewrite bind_return; [|unfold on_fst; simpl; by rewrite Hn].
  unfold on_snd; simpl. by destruct (Exists_operation nop q w).
Qed.

(** A mock whose cursor is within its script, seen as [ops] and a natural
    position. *)
Lemma mock_with_next ex nop :
  index (Ops ex) (idx ex) = Some nop ->
  ex = mkMockQueryExecutor (Ops ex) (Z.of_nat (Z.to_nat (idx ex)))
  /\ Ops ex !! Z.to_nat (idx ex) = Some nop
  /\ Z.of_nat (Z.to_nat (idx ex)) = idx ex.
Proof.
  unfold index. case_bool_decide; [done|]. intros Hnop.
  split; [|split; [done|lia]]. destruct ex as [ops i]; simpl in *. f_equal. lia.
Qed.

Lemma Exec_at_next ctx q args ex nop w :
  slice_ok (Ops ex) ->
  index (Ops ex) (idx ex) = Some nop ->
  MockQueryExecutor_Exec ctx q args (ex, w)
  = ((Exec_operation nop q args w).1,
     (mkMockQueryExecutor (Ops ex) (idx ex + 1), (Exec_operation nop q args w).2)).
Proof.
  intros Hok (Hex & Hnop & Hi)%mock_with_next.
  rewrite Hex at 1. rewrite (Exec_next _ _ _ _ _ nop) by done. by rewrite Hi.
Qed.

Lemma Scan_at_next ctx q args ex nop w :
  slice_ok (Ops ex) ->
  index (Ops ex) (idx ex) = Some nop ->
  MockQueryExecutor_Scan ctx q args (ex, w)
  = ((Scan_operation nop q args w).1,
     (mkMockQueryExecutor (Ops ex) (idx ex + 1), (Scan_operation nop q args w).2)).
Proof.
  intros Hok (Hex & Hnop & Hi)%mock_with_next.
  rewrite Hex at 1. rewrite (Scan_next _ _ _ _ _ nop) by done. by rewrite Hi.
Qed.

Lemma Exists_at_next ctx q ex nop w :
  slice_ok (Ops ex) ->
  index (Ops ex) (idx ex) = Some nop ->
  MockQueryExecutor_Exists ctx q (ex, w)
  = ((Exists_operation nop q w).1,
     (mkMockQueryExecutor (Ops ex) (idx ex + 1), (Exists_operation nop q w).2)).
Proof.
  intros Hok (Hex & Hnop & Hi)%mock_with_next.
  rewrite Hex at 1. rewrite (Exists_next _ _ _ _ nop) by done. by rewrite Hi.
Qed.

(** The panics an operation's part of a call can end in. *)
Lemma call_operation_panic nop c w p w' :
  call_operation nop c w = (Panicked p, w') ->
  (exists expected, p = PanicValue (opCastError expected nop))
  \/ p = PanicValue args_length_message
  \/ library_panic p.
Proof.
  destruct c as [ctx q args|ctx q args|ctx q]; simpl; rewrite map_result_eq.
  - destruct (Exec_operation nop q args w) as [[r|e] w1] eqn:E; [discriminate|].
    intros [= <- <-]. destruct (is_exec nop) eqn:Hty.
    + destruct nop; try discriminate Hty.
      apply Exec_operation_match_panic in E as [->|?]; auto.
    + rewrite Exec_operation_mismatch in E by done. injection E as <- <-. eauto.
  - destruct (Scan_operation nop q args w) as [[r|e] w1] eqn:E; [discriminate|].
    intros [= <- <-]. destruct (is_scan nop) eqn:Hty.
    + destruct nop; try discriminate Hty.
      apply Scan_operation_match_panic in E; auto.
    + rewrite Scan_operation_mismatch in E by done. injection E as <- <-. eauto.
  - destruct (Exists_operation nop q w) as [[r|e] w1] eqn:E; [discriminate|].
    intros [= <- <-]. destruct (is_exists nop) eqn:Hty.
    + destruct nop; try discriminate Hty. by rewrite Exists_operation_match in E.
    + rewrite Exists_operation_mismatch in E by done. injection E as <- <-. eauto.
Qed.

(** A call made while operations remain does not end in the exhaustion
    panic, whatever the cursor and the script. *)
Lemma call_not_exhausted c ex w :
  idx ex < len (Ops ex) -> ~ exhaustion_panic (call c (ex, w)).1.
Proof.
  intros Hlt (i & n & Hp).
  assert (Hcases : (exists nop ex', call c (ex, w)
                      = ((call_operation nop c w).1, (ex', (call_operation nop c w).2)))
                   \/ (call c (ex, w)).1 = Panicked (RuntimeError IndexOutOfRange)).
  { assert (Hn : (exists nop ex', nextOp ex = (Return nop, ex'))
                 \/ exists ex', nextOp ex = (Panicked (RuntimeError IndexOutOfRange), ex')).
    { unfold nextOp. rewrite bool_decide_eq_false_2 by lia.
      destruct (index _ _); eauto. }
    destruct Hn as [(nop & ex' & Hn)|(ex' & Hn)]; [left; exists nop, ex'|right].
    - destruct c; simpl; rewrite !map_result_eq;
        unfold MockQueryExecutor_Exec, MockQueryExecutor_Scan, MockQueryExecutor_Exists;
        (erewrite bind_return; [|unfold on_fst; simpl; by rewrite Hn]);
        unfold on_snd; simpl.
      + by destruct (Exec_operation nop q args w) as [[?|?] ?].
      + by destruct (Scan_operation nop q args w) as [[?|?] ?].
      + by destruct (Exists_operation nop q w) as [[?|?] ?].
    - destruct c; simpl; rewrite !map_result_eq;
        unfold MockQueryExecutor_Exec, MockQueryExecutor_Scan, MockQueryExecutor_Exists;
        (erewrite bind_panicked; [done|]); unfold on_fst; simpl; by rewrite Hn. }
  destruct Hcases as [(nop & ex' & Hc)|Hc]; [|congruence].
  rewrite Hc in Hp. simpl in Hp.
  destruct (call_operation nop c w) as [r w1] eqn:E. simpl in Hp. subst r.
  apply call_operation_panic in E as [(e & E)|[E|E]].
  - apply (exhausted_not_cast i n e nop). congruence.
  - apply (exhausted_not_args_length i n). congruence.
  - done.
Qed.

(** ** Runs *)

Lemma run_app cs1 : forall cs2 st,
  run (cs1 ++ cs2)%list st =
    (((run cs1 st).1 ++ (run cs2 (run cs1 st).2).1)%list, (run cs2 (run cs1 st).2).2).
Proof.
  induction cs1 as [|c cs1 IH]; intros cs2 st; simpl.
  - by destruct (run cs2 st).
  - destruct (call c st) as [r st1]. rewrite IH.
    destruct (run cs1 st1) as [rs1 st2]; simpl.
    by destruct (run cs2 st2).
Qed.

Lemma run_length cs : forall st, length (run cs st).1 = length cs.
Proof.
  induction cs as [|c cs IH]; intros st; simpl; [done|].
  destruct (call c st) as [r st1]. specialize (IH st1).
  destruct (run cs st1) as [rs st2]; simpl in *. by rewrite IH.
Qed.

Lemma run_cons c cs st :
  run (c :: cs) st = ((call c st).1 :: (run cs (call c st).2).1, (run cs (call c st).2).2).
Proof. simpl. destruct (call c st) as [r st1]; simpl. by destruct (run cs st1). Qed.

(** After a run, the cursor stands at the number of calls made, or at the
    end of the script if that comes first. *)
Lemma run_cursor ops cs : forall (i : nat) w,
  slice_ok ops ->
  (i <= length ops)%nat ->
  (run cs (mkMockQueryExecutor ops (Z.of_nat i), w)).2.1
  = mkMockQueryExecutor ops (Z.of_nat (Nat.min (i + length cs) (length ops))).
Proof.
  induction cs as [|c cs IH]; intros i w Hok Hi.
  - simpl. do 2 f_equal. lia.
  - rewrite run_cons. cbn [fst snd length].
    destruct (decide (i < length ops)%nat) as [Hlt|Hge].
    + destruct (lookup_lt_is_Some_2 ops i Hlt) as [nop Hnop].
      rewrite (call_next c ops i nop w Hok Hnop). cbn [fst snd].
      replace (Z.of_nat i + 1) with (Z.of_nat (S i)) by lia.
      rewrite IH by (done || lia). do 2 f_equal. lia.
    + rewrite call_exhausted by (simpl; unfold len; lia). cbn [fst snd].
      rewrite IH by (done || lia). do 2 f_equal. lia.
Qed.

(** ** The methods in terms of [nextOp] and the operation's part *)

Lemma Exec_unfold ctx q args ex w :
  MockQueryExecutor_Exec ctx q args (ex, w) =
    match nextOp ex with
    | (Return nop, ex') =>
        ((Exec_operation nop q args w).1, (ex', (Exec_operation nop q args w).2))
    | (Panicked p, ex') => (Panicked p, (ex', w))
    end.
Proof.
  unfold MockQueryExecutor_Exec, mbind, M_bind, on_fst, on_snd. simpl.
  destruct (nextOp ex) as [[nop|p] ex']; [|done].
  simpl. by destruct (Exec_operation nop q args w).
Qed.

Lemma Scan_unfold ctx q args ex w :
  MockQueryExecutor_Scan ctx q args (ex, w) =
    match nextOp ex with
    | (Return nop, ex') =>
        ((Scan_operation nop q args w).1, (ex', (Scan_operation nop q args w).2))
    | (Panicked p, ex') => (Panicked p, (ex', w))
    end.
Proof.
  unfold MockQueryExecutor_Scan, mbind, M_bind, on_fst, on_snd. simpl.
  destruct (nextOp ex) as [[nop|p] ex']; [|done].
  simpl. by destruct (Scan_operation nop q args w).
Qed.

Lemma Exists_unfold ctx q ex w :
  MockQueryExecutor_Exists ctx q (ex, w) =
    match nextOp ex with
    | (Return nop, ex') =>
        ((Exists_operation nop q w).1, (ex', (Exists_operation nop q w).2))
    | (Panicked p, ex') => (Panicked p, (ex', w))
    end.
Proof.
  unfold MockQueryExecutor_Exists, mbind, M_bind, on_fst, on_snd. simpl.
  destruct (nextOp ex) as [[nop|p] ex']; [|done].
  simpl. by destruct (Exists_operation nop q w).
Qed.

Lemma Exec_operation_return nop q args w r w' :
  Exec_operation nop q args w = (Return r, w') ->
  exists op, nop = ExecOperation op /\ r = Exec_scripted op.
Proof.
  destruct nop as [|op| | |]; try discriminate. intros H. exists op. split; [done|].
  unfold Exec_scripted. destruct (exec_Error op) as [e|] eqn:He.
  - unfold Exec_operation in H. rewrite He in H. by injection H as <- <-.
  - rewrite Exec_operation_unfold in H by done. unfold mbind, M_bind in H.
    destruct (Exec_model_step op q w) as [[[]|?] w1]; [|discriminate].
    case_match; [discriminate|].
    destruct (assign_args _ _ _ w1) as [[[]|?] w2]; [|discriminate].
    by injection H as <- <-.
Qed.

Lemma Scan_operation_return nop q args w r w' :
  Scan_operation nop q args w = (Return r, w') ->
  exists op, nop = ScanOperation op /\ r = scan_Error op.
Proof.
  destruct nop as [| |op| |]; try discriminate. intros H. exists op. split; [done|].
  destruct (scan_Error op) as [e|] eqn:He.
  - unfold Scan_operation in H. rewrite He in H. by injection H as <- <-.
  - rewrite Scan_operation_unfold in H by done. unfold mbind, M_bind in H.
    destruct (Scan_model_step op q w) as [[[]|?] w1]; [|discriminate].
    destruct (assign_args _ _ _ w1) as [[[]|?] w2]; [|discriminate].
    by injection H as <- <-.
Qed.

Lemma Exec_operation_keeps_db nop q args w :
  db (Exec_operation nop q args w).2 = db w.
Proof.
  destruct nop as [|op| | |]; try done.
  destruct (exec_Error op) as [e|] eqn:He.
  { unfold Exec_operation. by rewrite He. }
  rewrite Exec_operation_unfold by done. unfold mbind, M_bind.
  destruct (Exec_model_step op q w) as [[[]|?] w1] eqn:E;
    apply Exec_model_step_keeps_db in E; [|done].
  case_match; [done|].
  destruct (assign_args _ _ _ w1) as [[[]|?] w2] eqn:E2;
    apply assign_args_keeps_db in E2; simpl; congruence.
Qed.

Lemma Scan_operation_keeps_db nop q args w :
  db (Scan_operation nop q args w).2 = db w.
Proof.
  destruct nop as [| |op| |]; try done.
  destruct (scan_Error op) as [e|] eqn:He.
  { unfold Scan_operation. by rewrite He. }
  rewrite Scan_operation_unfold by done. unfold mbind, M_bind.
  destruct (Scan_model_step op q w) as [[[]|?] w1] eqn:E;
    apply Scan_model_step_keeps_db in E; [|done].
  destruct (assign_args _ _ _ w1) as [[[]|?] w2] eqn:E2;
    apply assign_args_keeps_db in E2; simpl; congruence.
Qed.

Lemma Exists_operation_pure nop q w : (Exists_operation nop q w).2 = w.
Proof. destruct nop as [| | |op|]; try done. by rewrite Exists_operation_match. Qed.

(** ** The claims *)

(** C1. From a mock as a test writes it, and for every sequence of calls to
    Exec, Scan and Exists, the call in position [n] (counting from 0, so the
    (n+1)-th call) finds the cursor at [n], leaves it at [n + 1], and its
    outcome and its effect on the world are those of the operation
    [Ops[n]] alone: they are the same under any other script that has the
    same entry at position [n]. *)
Theorem nth_call_consumes_nth_operation ops cs w (n : nat) c nop :
  slice_ok ops ->
  cs !! n = Some c ->
  ops !! n = Some nop ->
  let before := (run (take n cs) (new_mock ops, w)).2 in
  before.1 = mkMockQueryExecutor ops (Z.of_nat n)
  /\ call c before
     = ((call_operation nop c before.2).1,
        (mkMockQueryExecutor ops (Z.of_nat n + 1), (call_operation nop c before.2).2))
  /\ (run cs (new_mock ops, w)).1 !! n = Some (call_operation nop c before.2).1
  /\ (forall ops', slice_ok ops' -> ops' !! n = Some nop ->
        (call c (mkMockQueryExecutor ops' (Z.of_nat n), before.2)).1 = (call c before).1
        /\ (call c (mkMockQueryExecutor ops' (Z.of_nat n), before.2)).2.2
           = (call c before).2.2).
Proof.
  intros Hok Hc Hnop before.
  pose proof (lookup_lt_Some _ _ _ Hc) as Hn.
  pose proof (lookup_lt_Some _ _ _ Hnop) as Hn'.
  assert (Hcur : before.1 = mkMockQueryExecutor ops (Z.of_nat n)).
  { subst before. unfold new_mock.
    change (mkMockQueryExecutor ops 0) with (mkMockQueryExecutor ops (Z.of_nat 0)).
    rewrite (run_cursor ops (take n cs) 0 w Hok) by lia.
    rewrite length_take. do 2 f_equal. lia. }
  assert (Hcall : call c before
     = ((call_operation nop c before.2).1,
        (mkMockQueryExecutor ops (Z.of_nat n + 1), (call_operation nop c before.2).2))).
  { rewrite (surjective_pairing before) at 1. rewrite Hcur. by apply call_next. }
  split; [done|]. split; [done|]. split.
  - rewrite <- (take_drop_middle cs n c Hc) at 1.
    rewrite run_app. cbn [fst].
    rewrite lookup_app_r; rewrite run_length, length_take; [|lia].
    replace (n - n `min` length cs)%nat with 0%nat by lia.
    rewrite run_cons. cbn [fst lookup list_lookup]. fold before. by rewrite Hcall.
  - intros ops' Hok' Hnop'. rewrite Hcall.
    by rewrite (call_next c ops' n nop before.2 Hok' Hnop').
Qed.

Lemma nth_call_consumes_nth_operation_witness :
  let before := (run (take 2 TestMocks.exec_calls)
                     (new_mock TestMocks.exec_ops, TestMocks.world0)).2 in
  before.1 = mkMockQueryExecutor TestMocks.exec_ops 2
  /\ (call (CallExec Background (TestMocks.insert_query TestMocks.n_ptr) []) before).1
     = Return (ExecReturned (Some TestMocks.result_) None).
Proof.
  pose proof (nth_call_consumes_nth_operation TestMocks.exec_ops TestMocks.exec_calls
    TestMocks.world0 2 (CallExec Background (TestMocks.insert_query TestMocks.n_ptr) [])
    (ExecOperation (mkMockExecOperation TestMocks.m_ptr [] (Some TestMocks.result_) None)))
    as H.
  destruct H as (H1 & H2 & _).
  - unfold slice_ok, len, max_int. simpl. lia.
  - reflexivity.
  - reflexivity.
  - split; [exact H1|]. rewrite H2. vm_compute. reflexivity.
Defined.

(** C2. With an operation left to consume, Exec panics with the cast
    message when that operation is not a MockExecOperation, Scan when it is
    not a MockScanOperation, Exists when it is not a MockExistsOperation;
    when the operation is of the type the method asks for, the call does not
    end in a cast panic. *)
Theorem wrong_operation_type_panics ex w nop ctx qe qs qx args :
  slice_ok (Ops ex) ->
  index (Ops ex) (idx ex) = Some nop ->
  (is_exec nop = false ->
     (MockQueryExecutor_Exec ctx qe args (ex, w)).1
     = Panicked (PanicValue (opCastError "MockExec" nop)))
  /\ (is_scan nop = false ->
     (MockQueryExecutor_Scan ctx qs args (ex, w)).1
     = Panicked (PanicValue (opCastError "MockScan" nop)))
  /\ (is_exists nop = false ->
     (MockQueryExecutor_Exists ctx qx (ex, w)).1
     = Panicked (PanicValue (opCastError "MockExists" nop)))
  /\ (is_exec nop = true ->
     ~ cast_panic (MockQueryExecutor_Exec ctx qe args (ex, w)).1)
  /\ (is_scan nop = true ->
     ~ cast_panic (MockQueryExecutor_Scan ctx qs args (ex, w)).1)
  /\ (is_exists nop = true ->
     ~ cast_panic (MockQueryExecutor_Exists ctx qx (ex, w)).1).
Proof.
  intros Hok Hnop.
  rewrite (Exec_at_next _ _ _ _ nop), (Scan_at_next _ _ _ _ nop),
    (Exists_at_next _ _ _ nop) by done. cbn [fst].
  repeat split.
  - intros Hty. by rewrite Exec_operation_mismatch.
  - intros Hty. by rewrite Scan_operation_mismatch.
  - intros Hty. by rewrite Exists_operation_mismatch.
  - intros Hty (e & f & Hp). destruct nop as [|op| | |]; try discriminate Hty.
    destruct (Exec_operation _ qe args w) as [r w1] eqn:E. simpl in Hp. subst r.
    apply Exec_operation_match_panic in E as [E|E].
    + apply (cast_not_args_length e f). congruence.
    + done.
  - intros Hty (e & f & Hp). destruct nop as [| |op| |]; try discriminate Hty.
    destruct (Scan_operation _ qs args w) as [r w1] eqn:E. simpl in Hp. subst r.
    by apply Scan_operation_match_panic in E.
  - intros Hty (e & f & Hp). destruct nop as [| | |op|]; try discriminate Hty.
    by rewrite Exists_operation_match in Hp.
Qed.

Lemma wrong_operation_type_panics_witness :
  (MockQueryExecutor_Exec Background (TestMocks.insert_query TestMocks.n_ptr) []
     (new_mock TestMocks.exec_ops, TestMocks.world0)).1
  = Panicked (PanicValue
      "expected 'MockExec' operation, but found 'bunoffe.MockScanOperation'")
  /\ ~ cast_panic
       (MockQueryExecutor_Scan Background (TestMocks.select_scan TestMocks.n_ptr) []
          (new_mock TestMocks.exec_ops, TestMocks.world0)).1.
Proof.
  pose proof (wrong_operation_type_panics (new_mock TestMocks.exec_ops) TestMocks.world0
    (ScanOperation (mkMockScanOperation None [] None)) Background
    (TestMocks.insert_query TestMocks.n_ptr) (TestMocks.select_scan TestMocks.n_ptr)
    (TestMocks.select_exists TestMocks.n_ptr) []) as H.
  destruct H as (H1 & _ & _ & _ & H5 & _).
  - unfold slice_ok, len, max_int. simpl. lia.
  - reflexivity.
  - split; [apply H1; reflexivity | apply H5; reflexivity].
Defined.

(** C3. A call to Exec, Scan or Exists ends in the exhaustion panic if and
    only if the cursor has reached the length of Ops at the time of the
    call; the panic then carries [idx] and [len(Ops)], and neither the cursor
    nor anything else is changed.  For a mock as a test writes it, that is
    the case exactly when at least [len(Ops)] calls were made before. *)
Theorem exhaustion_panic_iff c ex w :
  (exhaustion_panic (call c (ex, w)).1 <-> len (Ops ex) <= idx ex)
  /\ (len (Ops ex) <= idx ex ->
        call c (ex, w)
        = (Panicked (PanicValue (exhausted_message (idx ex) (len (Ops ex)))), (ex, w)))
  /\ (forall ops cs w0,
        slice_ok ops ->
        (run cs (new_mock ops, w0)).2 = (ex, w) ->
        (len (Ops ex) <= idx ex <-> len ops <= len cs)).
Proof.
  split; [split|split].
  - intros Hp. destruct (decide (len (Ops ex) <= idx ex)) as [|Hlt]; [done|].
    exfalso. apply (call_not_exhausted c ex w); [lia|done].
  - intros Hle. rewrite call_exhausted by done. unfold exhaustion_panic. eauto.
  - apply call_exhausted.
  - intros ops cs w0 Hok Hrun.
    pose proof (run_cursor ops cs 0 w0 Hok ltac:(lia)) as Hcur.
    change (mkMockQueryExecutor ops (Z.of_nat 0)) with (new_mock ops) in Hcur.
    rewrite Hrun in Hcur. simpl in Hcur. subst ex. unfold len. simpl. lia.
Qed.

Lemma exhaustion_panic_iff_witness :
  call (CallExists Background (TestMocks.select_exists TestMocks.n_ptr))
    (run TestMocks.exists_calls (new_mock TestMocks.exists_ops, TestMocks.world0)).2
  = (Panicked (PanicValue
       "mocked query requested operation #4, but test only contains 4"),
     (run TestMocks.exists_calls (new_mock TestMocks.exists_ops, TestMocks.world0)).2)
  /\ (len TestMocks.exists_ops <= 4 <-> len TestMocks.exists_ops <= len TestMocks.exists_calls).
Proof.
  pose proof (exhaustion_panic_iff
    (CallExists Background (TestMocks.select_exists TestMocks.n_ptr))
    (mkMockQueryExecutor TestMocks.exists_ops 4) TestMocks.world0) as (_ & H2 & H3).
  split.
  - apply H2. vm_compute. discriminate.
  - apply (H3 TestMocks.exists_ops TestMocks.exists_calls TestMocks.world0).
    + unfold slice_ok, len, max_int. simpl. lia.
    + reflexivity.
Defined.

(** C4. When the operation consumed is of the type the method asks for and
    its Error is not nil, the method returns that very error: Exec returns
    (nil, op.Error), Scan returns op.Error, Exists returns (false, op.Error). *)
Theorem scripted_error_is_returned ex w nop :
  slice_ok (Ops ex) ->
  index (Ops ex) (idx ex) = Some nop ->
  (forall op e ctx q args,
     nop = ExecOperation op -> exec_Error op = Some e ->
     (MockQueryExecutor_Exec ctx q args (ex, w)).1 = Return (None, Some e))
  /\ (forall op e ctx q args,
     nop = ScanOperation op -> scan_Error op = Some e ->
     (MockQueryExecutor_Scan ctx q args (ex, w)).1 = Return (Some e))
  /\ (forall op e ctx q,
     nop = ExistsOperation op -> exists_Error op = Some e ->
     (MockQueryExecutor_Exists ctx q (ex, w)).1 = Return (false, Some e)).
Proof.
  intros Hok Hnop. repeat split.
  - intros op e ctx q args -> He. rewrite (Exec_at_next _ _ _ _ _ _ Hok Hnop).
    unfold Exec_operation. by rewrite He.
  - intros op e ctx q args -> He. rewrite (Scan_at_next _ _ _ _ _ _ Hok Hnop).
    unfold Scan_operation. by rewrite He.
  - intros op e ctx q -> He. rewrite (Exists_at_next _ _ _ _ _ Hok Hnop).
    unfold Exists_operation. by rewrite He.
Qed.

Lemma scripted_error_is_returned_witness :
  (MockQueryExecutor_Exec Background (TestMocks.insert_query TestMocks.n_ptr) []
     (mkMockQueryExecutor TestMocks.exec_ops 1, TestMocks.world0)).1
  = Return (None, Some "an error").
Proof.
  pose proof (scripted_error_is_returned (mkMockQueryExecutor TestMocks.exec_ops 1)
    TestMocks.world0
    (ExecOperation (mkMockExecOperation None [] None TestMocks.an_error))) as H.
  destruct H as (H1 & _).
  - unfold slice_ok, len, max_int. simpl. lia.
  - reflexivity.
  - apply (H1 (mkMockExecOperation None [] None TestMocks.an_error) "an error");
      reflexivity.
Defined.

(** C9. When the Error field of the operation consumed is not nil, the
    world is left exactly as it was (so neither the query's model nor what
    the caller's args point to is modified), and the cursor has advanced by
    one; this holds for the three methods, whether the operation is of the
    type the method asks for (the error branch returns before any
    assignment) or not (the cast panic is raised before any assignment). *)
Theorem scripted_error_moves_only_cursor ex w nop ctx qe qs qx args :
  slice_ok (Ops ex) ->
  index (Ops ex) (idx ex) = Some nop ->
  operation_Error nop <> None ->
  let ex' := mkMockQueryExecutor (Ops ex) (idx ex + 1) in
  (MockQueryExecutor_Exec ctx qe args (ex, w)).2 = (ex', w)
  /\ (MockQueryExecutor_Scan ctx qs args (ex, w)).2 = (ex', w)
  /\ (MockQueryExecutor_Exists ctx qx (ex, w)).2 = (ex', w).
Proof.
  intros Hok Hnop He ex'.
  rewrite (Exec_at_next _ _ _ _ _ _ Hok Hnop), (Scan_at_next _ _ _ _ _ _ Hok Hnop),
    (Exists_at_next _ _ _ _ _ Hok Hnop). cbn [snd].
  destruct nop as [|op|op|op|name]; simpl in He; try done.
  - destruct (exec_Error op) as [e|] eqn:Herr; [|done].
    split_and!; try done. unfold Exec_operation. by rewrite Herr.
  - destruct (scan_Error op) as [e|] eqn:Herr; [|done].
    split_and!; try done. unfold Scan_operation. by rewrite Herr.
  - destruct (exists_Error op) as [e|] eqn:Herr; [|done].
    split_and!; try done. unfold Exists_operation. by rewrite Herr.
Qed.

Lemma scripted_error_moves_only_cursor_witness :
  (MockQueryExecutor_Scan Background (TestMocks.select_scan TestMocks.n_ptr)
     [TestMocks.s_ptr; TestMocks.f_ptr]
     (mkMockQueryExecutor TestMocks.scan_ops 1, TestMocks.world0)).2
  = (mkMockQueryExecutor TestMocks.scan_ops 2, TestMocks.world0).
Proof.
  pose proof (scripted_error_moves_only_cursor (mkMockQueryExecutor TestMocks.scan_ops 1)
    TestMocks.world0
    (ScanOperation (mkMockScanOperation None [] TestMocks.an_error))
    Background (TestMocks.insert_query TestMocks.n_ptr)
    (TestMocks.select_scan TestMocks.n_ptr) (TestMocks.select_exists TestMocks.n_ptr)
    [TestMocks.s_ptr; TestMocks.f_ptr]) as H.
  destruct H as (_ & H2 & _).
  - unfold slice_ok, len, max_int. simpl. lia.
  - reflexivity.
  - discriminate.
  - exact H2.
Defined.

(** C5. QueryRealizer adds nothing of its own: each of its methods is the
    query's method of the same name, with the same result, the same panic
    and the same effect on the world, also when it is called through the
    Executor interface, where the receiver is handed back unchanged. *)
Theorem QueryRealizer_is_pass_through (r : QueryRealizer) ctx qe qs qx args w :
  QueryRealizer_Exec r ctx qe args w = direct_Exec ctx qe args w
  /\ QueryRealizer_Scan r ctx qs args w = direct_Scan ctx qs args w
  /\ QueryRealizer_Exists r ctx qx w = direct_Exists ctx qx w
  /\ Exec ctx qe args (r, w)
     = ((direct_Exec ctx qe args w).1, (r, (direct_Exec ctx qe args w).2))
  /\ Scan ctx qs args (r, w)
     = ((direct_Scan ctx qs args w).1, (r, (direct_Scan ctx qs args w).2))
  /\ Exists ctx qx (r, w)
     = ((direct_Exists ctx qx w).1, (r, (direct_Exists ctx qx w).2)).
Proof.
  repeat split; try reflexivity; simpl; unfold on_snd; simpl.
  - unfold QueryRealizer_Exec, direct_Exec. by destruct (ExecQuery_Exec qe ctx args w).
  - unfold QueryRealizer_Scan, direct_Scan. by destruct (ScanQuery_Scan qs ctx args w).
  - unfold QueryRealizer_Exists, direct_Exists. by destruct (ExistsQuery_Exists qx ctx w).
Qed.

(** C7. What Exec, Scan and Exists return is read off the mock alone: two
    calls made from the same mock that both return, return the same values,
    whatever the queries, the contexts, the arguments and the worlds they are
    made in; Exists does not look at its query or context at all; Exec and
    Scan look at no more of a query than its registered model; and none of
    the three changes the database. *)
Theorem mock_ignores_query_and_context ex :
  (forall ctx1 ctx2 q1 q2 args1 args2 w1 w2 r1 r2,
     (MockQueryExecutor_Exec ctx1 q1 args1 (ex, w1)).1 = Return r1 ->
     (MockQueryExecutor_Exec ctx2 q2 args2 (ex, w2)).1 = Return r2 ->
     r1 = r2)
  /\ (forall ctx1 ctx2 q1 q2 args1 args2 w1 w2 r1 r2,
     (MockQueryExecutor_Scan ctx1 q1 args1 (ex, w1)).1 = Return r1 ->
     (MockQueryExecutor_Scan ctx2 q2 args2 (ex, w2)).1 = Return r2 ->
     r1 = r2)
  /\ (forall ctx1 ctx2 q1 q2 w,
     MockQueryExecutor_Exists ctx1 q1 (ex, w) = MockQueryExecutor_Exists ctx2 q2 (ex, w))
  /\ (forall ctx1 ctx2 q1 q2 args w,
     ExecQuery_GetModel q1 = ExecQuery_GetModel q2 ->
     MockQueryExecutor_Exec ctx1 q1 args (ex, w) = MockQueryExecutor_Exec ctx2 q2 args (ex, w))
  /\ (forall ctx1 ctx2 q1 q2 args w,
     ScanQuery_GetModel q1 = ScanQuery_GetModel q2 ->
     MockQueryExecutor_Scan ctx1 q1 args (ex, w) = MockQueryExecutor_Scan ctx2 q2 args (ex, w))
  /\ (forall ctx qe qs qx args w,
     db (MockQueryExecutor_Exec ctx qe args (ex, w)).2.2 = db w
     /\ db (MockQueryExecutor_Scan ctx qs args (ex, w)).2.2 = db w
     /\ db (MockQueryExecutor_Exists ctx qx (ex, w)).2.2 = db w).
Proof.
  split_and!.
  - intros ctx1 ctx2 q1 q2 args1 args2 w1 w2 r1 r2. rewrite !Exec_unfold.
    destruct (nextOp ex) as [[nop|p] ex']; [|discriminate]. cbn [fst].
    destruct (Exec_operation nop q1 args1 w1) as [o1 w1'] eqn:E1.
    destruct (Exec_operation nop q2 args2 w2) as [o2 w2'] eqn:E2.
    simpl. intros -> ->.
    apply Exec_operation_return in E1 as (op1 & -> & ->).
    apply Exec_operation_return in E2 as (op2 & [= <-] & ->). done.
  - intros ctx1 ctx2 q1 q2 args1 args2 w1 w2 r1 r2. rewrite !Scan_unfold.
    destruct (nextOp ex) as [[nop|p] ex']; [|discriminate]. cbn [fst].
    destruct (Scan_operation nop q1 args1 w1) as [o1 w1'] eqn:E1.
    destruct (Scan_operation nop q2 args2 w2) as [o2 w2'] eqn:E2.
    simpl. intros -> ->.
    apply Scan_operation_return in E1 as (op1 & -> & ->).
    apply Scan_operation_return in E2 as (op2 & [= <-] & ->). done.
  - intros ctx1 ctx2 q1 q2 w. rewrite !Exists_unfold.
    destruct (nextOp ex) as [[nop|p] ex']; [|done]. by destruct nop.
  - intros ctx1 ctx2 q1 q2 args w Hm. rewrite !Exec_unfold.
    destruct (nextOp ex) as [[nop|p] ex']; [|done].
    destruct nop as [|op| | |]; try done.
    unfold Exec_operation, Exec_model_step. by rewrite Hm.
  - intros ctx1 ctx2 q1 q2 args w Hm. rewrite !Scan_unfold.
    destruct (nextOp ex) as [[nop|p] ex']; [|done].
    destruct nop as [| |op| |]; try done.
    unfold Scan_operation, Scan_model_step. by rewrite Hm.
  - intros ctx qe qs qx args w. split_and!.
    + rewrite Exec_unfold. destruct (nextOp ex) as [[nop|p] ex']; [|done].
      apply Exec_operation_keeps_db.
    + rewrite Scan_unfold. destruct (nextOp ex) as [[nop|p] ex']; [|done].
      apply Scan_operation_keeps_db.
    + rewrite Exists_unfold. destruct (nextOp ex) as [[nop|p] ex']; [|done].
      simpl. by rewrite Exists_operation_pure.
Qed.

(** What the model step of Scan does when the query has a model that is a
    non-nil pointer and the operation's Model holds a value of its type. *)
Lemma Scan_model_step_ok op q qm t a v w :
  scan_Model op <> None ->
  ScanQuery_GetModel q = Some qm ->
  Value qm = Some (VPtr t (Some a)) ->
  is_Some (heap w !! a) ->
  held_type (scan_Model op) = Some t ->
  held_value (scan_Model op) w = Some v ->
  Scan_model_step op q w = (Return tt, write a v w).
Proof.
  intros Hm Hq Hv Ha Ht Hh. unfold Scan_model_step.
  destruct (scan_Model op) as [mv|] eqn:E; [|done].
  rewrite Hq. unfold mbind, M_bind, model_value, mret, M_ret. rewrite Hv.
  by apply assign_ok.
Qed.

Lemma Exec_model_step_ok op q qm t a v w :
  exec_Model op = Some (VPtr t (Some a)) ->
  ExecQuery_GetModel q = Some qm ->
  is_Some (heap w !! a) ->
  held_type (Value qm) = Some t ->
  held_value (Value qm) w = Some v ->
  Exec_model_step op q w = (Return tt, write a v w).
Proof.
  intros Hm Hq Ha Ht Hh. unfold Exec_model_step. rewrite Hm, Hq.
  unfold mbind, M_bind, model_value, mret, M_ret. by apply assign_ok.
Qed.

Lemma held_value_written t a v w :
  held_value (Some (VPtr t (Some a))) (write a v w) = Some v.
Proof. simpl. apply lookup_insert_eq. Qed.

(** C6, amended.  When a call to Scan consumes a MockScanOperation whose
    Error is nil and whose Model is not nil, and the query has a registered
    model that is a non-nil pointer to a variable of the type of the value
    the operation's Model holds, that value is assigned to the query's model.
    The call then goes on to assign op.Args to args: it returns nil if that
    goes through, as it does when op.Args is empty, and panics if it does
    not. *)
Theorem Scan_assigns_model ctx ex w op q args qm t a v :
  slice_ok (Ops ex) ->
  index (Ops ex) (idx ex) = Some (ScanOperation op) ->
  scan_Error op = None ->
  scan_Model op <> None ->
  ScanQuery_GetModel q = Some qm ->
  Value qm = Some (VPtr t (Some a)) ->
  is_Some (heap w !! a) ->
  held_type (scan_Model op) = Some t ->
  held_value (scan_Model op) w = Some v ->
  let ex' := mkMockQueryExecutor (Ops ex) (idx ex + 1) in
  held_value (Value qm) (write a v w) = Some v
  /\ MockQueryExecutor_Scan ctx q args (ex, w)
     = match assign_args args 0 (scan_Args op) (write a v w) with
       | (Return _, w2) => (Return None, (ex', w2))
       | (Panicked p, w2) => (Panicked p, (ex', w2))
       end
  /\ (scan_Args op = [] ->
      MockQueryExecutor_Scan ctx q args (ex, w) = (Return None, (ex', write a v w))).
Proof.
  intros Hok Hnop He Hm Hq Hv Ha Ht Hh ex'.
  assert (Hscan : MockQueryExecutor_Scan ctx q args (ex, w)
     = match assign_args args 0 (scan_Args op) (write a v w) with
       | (Return _, w2) => (Return None, (ex', w2))
       | (Panicked p, w2) => (Panicked p, (ex', w2))
       end).
  { rewrite (Scan_at_next _ _ _ _ _ _ Hok Hnop).
    rewrite Scan_operation_unfold by done. unfold mbind, M_bind.
    rewrite (Scan_model_step_ok op q qm t a v w) by done.
    by destruct (assign_args args 0 (scan_Args op) (write a v w)) as [[[]|?] ?]. }
  split_and!.
  - rewrite Hv. apply held_value_written.
  - done.
  - intros Hargs. rewrite Hscan, Hargs. done.
Qed.

Lemma Scan_assigns_model_witness :
  MockQueryExecutor_Scan Background (TestMocks.select_scan TestMocks.n_ptr) []
    (mkMockQueryExecutor TestMocks.scan_ops 2, TestMocks.world0)
  = (Return None,
     (mkMockQueryExecutor TestMocks.scan_ops 3,
      write TestMocks.n_loc (TestMocks.model "Hello, world!" 33) TestMocks.world0)).
Proof.
  pose proof (Scan_assigns_model Background (mkMockQueryExecutor TestMocks.scan_ops 2)
    TestMocks.world0 (mkMockScanOperation TestMocks.m_ptr [] None)
    (TestMocks.select_scan TestMocks.n_ptr) [] (mkModel TestMocks.n_ptr)
    (TStruct "bunoffe.model") TestMocks.n_loc (TestMocks.model "Hello, world!" 33)) as H.
  destruct H as (_ & _ & H3).
  - unfold slice_ok, len, max_int. simpl. lia.
  - reflexivity.
  - reflexivity.
  - discriminate.
  - reflexivity.
  - reflexivity.
  - vm_compute. eauto.
  - reflexivity.
  - reflexivity.
  - apply H3. reflexivity.
Defined.

(** C6 as stated fails: the operation below has a nil Error and a Model that
    is not nil, the query's model receives the value, and yet the call does
    not return nil: Scan goes on to [args[0]] of an empty [args] and
    panics. *)
Lemma Scan_model_then_panic_counterexample :
  let op := mkMockScanOperation TestMocks.m_ptr [Some (VString "hadouken")] None in
  let q := TestMocks.select_scan TestMocks.n_ptr in
  let out := MockQueryExecutor_Scan Background q []
               (new_mock [ScanOperation op], TestMocks.world0) in
  scan_Error op = None
  /\ scan_Model op <> None
  /\ out.1 = Panicked (RuntimeError IndexOutOfRange)
  /\ out.1 <> Return None
  /\ heap out.2.2 !! TestMocks.n_loc = Some (TestMocks.model "Hello, world!" 33).
Proof. vm_compute. split_and!; done. Qed.

(** C10, amended.  The model-copy direction of Exec is the reverse of
    Scan's.  When Exec consumes a MockExecOperation with a nil Error and a
    Model that is not nil, and op.Model is a non-nil pointer while the query
    has a model holding a value of the pointed-to type, the current value of
    the query's model is copied to what op.Model points to, before Exec goes
    on to its arguments.  When Scan consumes a MockScanOperation with a nil
    Error and a Model that is not nil, and the query's model is a non-nil
    pointer while op.Model holds a value of the pointed-to type, that value
    is copied to what the query's model points to. *)
Theorem Exec_and_Scan_copy_in_opposite_directions ctx ex w args :
  slice_ok (Ops ex) ->
  let ex' := mkMockQueryExecutor (Ops ex) (idx ex + 1) in
  (forall op q t a v qm,
     index (Ops ex) (idx ex) = Some (ExecOperation op) ->
     exec_Error op = None ->
     exec_Model op <> None ->
     exec_Model op = Some (VPtr t (Some a)) ->
     ExecQuery_GetModel q = Some qm ->
     is_Some (heap w !! a) ->
     held_type (Value qm) = Some t ->
     held_value (Value qm) w = Some v ->
     held_value (exec_Model op) (write a v w) = Some v
     /\ MockQueryExecutor_Exec ctx q args (ex, w)
        = ((Exec_args_step op args (write a v w)).1,
           (ex', (Exec_args_step op args (write a v w)).2)))
  /\ (forall op q t a v qm,
     index (Ops ex) (idx ex) = Some (ScanOperation op) ->
     scan_Error op = None ->
     scan_Model op <> None ->
     ScanQuery_GetModel q = Some qm ->
     Value qm = Some (VPtr t (Some a)) ->
     is_Some (heap w !! a) ->
     held_type (scan_Model op) = Some t ->
     held_value (scan_Model op) w = Some v ->
     held_value (Value qm) (write a v w) = Some v
     /\ MockQueryExecutor_Scan ctx q args (ex, w)
        = ((Scan_args_step op args (write a v w)).1,
           (ex', (Scan_args_step op args (write a v w)).2))).
Proof.
  intros Hok ex'. split.
  - intros op q t a v qm Hnop He Hm Hp Hq Ha Ht Hv.
    rewrite (Exec_at_next _ _ _ _ _ _ Hok Hnop).
    unfold Exec_operation. rewrite He. unfold mbind, M_bind.
    rewrite (Exec_model_step_ok op q qm t a v w) by done.
    split; [|done]. rewrite Hp. apply held_value_written.
  - intros op q t a v qm Hnop He Hm Hq Hp Ha Ht Hv.
    rewrite (Scan_at_next _ _ _ _ _ _ Hok Hnop).
    unfold Scan_operation. rewrite He. unfold mbind, M_bind.
    rewrite (Scan_model_step_ok op q qm t a v w) by done.
    split; [|done]. rewrite Hp. apply held_value_written.
Qed.

Lemma Exec_and_Scan_copy_in_opposite_directions_witness :
  MockQueryExecutor_Exec Background (TestMocks.insert_query TestMocks.n_ptr) []
    (mkMockQueryExecutor TestMocks.exec_ops 2, TestMocks.world0)
  = (Return (Some TestMocks.result_, None),
     (mkMockQueryExecutor TestMocks.exec_ops 3,
      write TestMocks.m_loc (TestMocks.model "" 0) TestMocks.world0))
  /\ MockQueryExecutor_Scan Background (TestMocks.select_scan TestMocks.n_ptr) []
    (mkMockQueryExecutor TestMocks.scan_ops 2, TestMocks.world0)
  = (Return None,
     (mkMockQueryExecutor TestMocks.scan_ops 3,
      write TestMocks.n_loc (TestMocks.model "Hello, world!" 33) TestMocks.world0)).
Proof.
  split.
  - pose proof (Exec_and_Scan_copy_in_opposite_directions Background
      (mkMockQueryExecutor TestMocks.exec_ops 2) TestMocks.world0 []) as H.
    destruct H as [H _]; [unfold slice_ok, len, max_int; simpl; lia|].
    destruct (H (mkMockExecOperation TestMocks.m_ptr [] (Some TestMocks.result_) None)
                (TestMocks.insert_query TestMocks.n_ptr)
                (TStruct "bunoffe.model") TestMocks.m_loc (TestMocks.model "" 0)
                (mkModel TestMocks.n_ptr)) as [_ H2];
      [reflexivity|reflexivity|discriminate|reflexivity|reflexivity
      |vm_compute; eauto|reflexivity|reflexivity|].
    rewrite H2. reflexivity.
  - pose proof (Exec_and_Scan_copy_in_opposite_directions Background
      (mkMockQueryExecutor TestMocks.scan_ops 2) TestMocks.world0 []) as H.
    destruct H as [_ H]; [unfold slice_ok, len, max_int; simpl; lia|].
    destruct (H (mkMockScanOperation TestMocks.m_ptr [] None)
                (TestMocks.select_scan TestMocks.n_ptr)
                (TStruct "bunoffe.model") TestMocks.n_loc
                (TestMocks.model "Hello, world!" 33) (mkModel TestMocks.n_ptr)) as [_ H2];
      [reflexivity|reflexivity|discriminate|reflexivity|reflexivity
      |vm_compute; eauto|reflexivity|reflexivity|].
    rewrite H2. reflexivity.
Defined.

(** C10 as stated fails: below, the operation's Model is not nil (it is a
    struct, not a pointer to one) and its Error is nil, the query has a
    model, and Exec panics in [reflect] without copying anything. *)
Lemma Exec_model_not_copied_counterexample :
  let op := mkMockExecOperation (Some (TestMocks.model "Hello, world!" 33)) [] None None in
  let q := TestMocks.insert_query TestMocks.n_ptr in
  let out := MockQueryExecutor_Exec Background q []
               (new_mock [ExecOperation op], TestMocks.world0) in
  exec_Error op = None
  /\ exec_Model op <> None
  /\ out.1 = Panicked (ReflectError SetUnaddressable)
  /\ out.2.2 = TestMocks.world0.
Proof. vm_compute. split_and!; done. Qed.

(** ** The loop over [op.Args] *)

Lemma assign_each_length args : forall vals w w2,
  assign_each args vals w = Some w2 -> length args = length vals.
Proof.
  induction args as [|x args IH]; intros [|y vals] w w2; simpl; try done.
  - by destruct x as [[| | | | |? [?|]]|].
  - destruct x as [[| | | | |t [a|]]|]; try done.
    destruct (heap w !! a), (held_type y), (held_value y w); try done.
    case_decide; [|done]. by intros ->%IH.
Qed.

(** The loop does what [assign_each] says, when that says anything; what
    [args] holds beyond the length of [vals] is not looked at. *)
Lemma assign_args_each args : forall vals pre suf w w2,
  assign_each args vals w = Some w2 ->
  assign_args (pre ++ args ++ suf)%list (length pre) vals w = (Return tt, w2).
Proof.
  induction args as [|x args IH]; intros [|y vals] pre suf w w2; simpl; try done.
  - by intros [= ->].
  - by destruct x as [[| | | | |? [?|]]|].
  - destruct x as [[| | | | |t [a|]]|]; try done.
    destruct (heap w !! a) as [old|] eqn:Ha; [|done].
    destruct (held_type y) as [t'|] eqn:Ht; [|done].
    destruct (held_value y w) as [v|] eqn:Hv; [|done].
    case_decide as Heq; [|done]. subst t'. intros Heach.
    rewrite lookup_app_r, Nat.sub_diag by lia. cbn [lookup list_lookup].
    unfold mbind, M_bind. rewrite (assign_ok t a y v w) by eauto.
    specialize (IH vals (pre ++ [Some (VPtr t (Some a))])%list suf (write a v w) w2 Heach).
    rewrite <- app_assoc, length_app in IH. simpl in IH.
    by replace (length pre + 1)%nat with (S (length pre)) in IH by lia.
Qed.

Lemma write_other a b v w : a <> b -> heap (write a v w) !! b = heap w !! b.
Proof. intros Hne. simpl. by apply lookup_insert_ne. Qed.

(** Writes through pointers to other variables leave a variable alone. *)
Lemma assign_each_other args : forall vals w w2 b,
  assign_each args vals w = Some w2 ->
  Forall (fun x => ~ points_to x b) args ->
  heap w2 !! b = heap w !! b.
Proof.
  induction args as [|x args IH]; intros [|y vals] w w2 b; simpl; try done.
  - by intros [= ->].
  - by destruct x as [[| | | | |? [?|]]|].
  - destruct x as [[| | | | |t [a|]]|]; try done.
    destruct (heap w !! a), (held_type y), (held_value y w); try done.
    case_decide; [|done]. intros Heach [Hx Hargs]%Forall_cons.
    rewrite (IH _ _ _ _ Heach Hargs). apply write_other.
    intros ->. apply Hx. by exists t.
Qed.

(** After the loop, a variable that only [args[i]] points to holds the value
    of [vals[i]], when that is not itself a pointer. *)
Lemma assign_each_lookup args : forall vals w w2 (i : nat) t a v,
  assign_each args vals w = Some w2 ->
  args !! i = Some (Some (VPtr t (Some a))) ->
  vals !! i = Some (Some v) ->
  is_pointer v = false ->
  (forall (j : nat) x, j <> i -> args !! j = Some x -> ~ points_to x a) ->
  heap w2 !! a = Some v.
Proof.
  induction args as [|x args IH]; intros [|y vals] w w2 i t a v; simpl; try done.
  destruct x as [[| | | | |t0 [a0|]]|]; try done.
  destruct (heap w !! a0) as [old|] eqn:Ha; [|done].
  destruct (held_type y) as [t'|] eqn:Ht; [|done].
  destruct (held_value y w) as [v0|] eqn:Hv; [|done].
  case_decide; [|done]. intros Heach Hi Hvi Hplain Hothers.
  destruct i as [|i]; simpl in *.
  - injection Hi as -> ->. injection Hvi as ->.
    assert (v0 = v) as -> by (destruct v; simpl in *; congruence).
    rewrite (assign_each_other _ _ _ _ a Heach).
    + apply lookup_insert_eq.
    + apply Forall_lookup. intros j x Hj. by apply (Hothers (S j)).
  - apply (IH _ _ _ i t a v Heach Hi Hvi Hplain).
    intros j x Hne Hj. apply (Hothers (S j)); [lia|done].
Qed.

(** Scan, and Exists, never raise the length panic of Exec. *)
Lemma Scan_no_length_panic ctx q args ex w :
  (MockQueryExecutor_Scan ctx q args (ex, w)).1
  <> Panicked (PanicValue args_length_message).
Proof.
  rewrite Scan_unfold. unfold nextOp. case_bool_decide.
  - simpl. intros Hs. apply (exhausted_not_args_length (idx ex) (len (Ops ex))).
    congruence.
  - destruct (index _ _) as [nop|]; [|done]. cbn [fst].
    destruct (is_scan nop) eqn:Hty.
    + destruct nop as [| |op| |]; try discriminate Hty.
      destruct (Scan_operation _ q args w) as [[r|p] w1] eqn:E; [done|].
      apply Scan_operation_match_panic in E. simpl. by intros [= ->].
    + rewrite Scan_operation_mismatch by done. simpl.
      intros Hs. apply (cast_not_args_length "MockScan" nop). congruence.
Qed.

Lemma Exec_args_step_length_differs op args w :
  exec_Args op <> [] ->
  len (exec_Args op) <> len args ->
  Exec_args_step op args w = (Panicked (PanicValue args_length_message), w).
Proof.
  intros Hne Hlen. unfold Exec_args_step.
  rewrite bool_decide_eq_true_2, bool_decide_eq_true_2; [done|done|].
  unfold len. destruct (exec_Args op); [done|simpl; lia].
Qed.

Lemma Exec_args_step_length_agrees op args w :
  len (exec_Args op) = len args ->
  Exec_args_step op args w =
    match assign_args args 0 (exec_Args op) w with
    | (Return _, w2) => (Return (exec_Result op, None), w2)
    | (Panicked p, w2) => (Panicked p, w2)
    end.
Proof.
  intros Hlen. unfold Exec_args_step.
  rewrite (bool_decide_eq_false_2 (len (exec_Args op) ≠ len args)) by tauto.
  rewrite andb_false_r. unfold mbind, M_bind.
  by destruct (assign_args args 0 (exec_Args op) w) as [[[]|?] ?].
Qed.

(** C8, amended.  When Exec consumes a MockExecOperation whose Error is nil
    and whose Args is not empty, the call panics if len(op.Args) differs from
    the number of args supplied: once the model step, if any, has gone
    through, with the length message.  When the lengths agree, the model step
    has gone through, and every args[i] is a non-nil pointer to a variable of
    the type of the value op.Args[i] holds, each args[i] is assigned that
    value, in order, and (op.Result, nil) is returned.  Scan never raises the
    length panic: it assigns as many args as op.Args has entries and returns
    nil also when more args were supplied. *)
Theorem Exec_checks_args_length ctx ex w op q args :
  slice_ok (Ops ex) ->
  index (Ops ex) (idx ex) = Some (ExecOperation op) ->
  exec_Error op = None ->
  exec_Args op <> [] ->
  let ex' := mkMockQueryExecutor (Ops ex) (idx ex + 1) in
  let out := MockQueryExecutor_Exec ctx q args (ex, w) in
  (len (exec_Args op) <> len args ->
     (exists p, out.1 = Panicked p)
     /\ (forall w1, Exec_model_step op q w = (Return tt, w1) ->
           out = (Panicked (PanicValue args_length_message), (ex', w1))))
  /\ (len (exec_Args op) = len args ->
      forall w1, Exec_model_step op q w = (Return tt, w1) ->
      forall w2, assign_each args (exec_Args op) w1 = Some w2 ->
        out = (Return (exec_Result op, None), (ex', w2))
        /\ (forall (i : nat) t a v,
              args !! i = Some (Some (VPtr t (Some a))) ->
              exec_Args op !! i = Some (Some v) ->
              is_pointer v = false ->
              (forall (j : nat) x, j <> i -> args !! j = Some x -> ~ points_to x a) ->
              heap w2 !! a = Some v))
  /\ (forall ctx0 q0 args0 ex0 w0,
        (MockQueryExecutor_Scan ctx0 q0 args0 (ex0, w0)).1
        <> Panicked (PanicValue args_length_message))
  /\ (forall ctx0 q0 args0 more ex0 w0 sop w1 w2,
        slice_ok (Ops ex0) ->
        index (Ops ex0) (idx ex0) = Some (ScanOperation sop) ->
        scan_Error sop = None ->
        Scan_model_step sop q0 w0 = (Return tt, w1) ->
        assign_each args0 (scan_Args sop) w1 = Some w2 ->
        MockQueryExecutor_Scan ctx0 q0 (args0 ++ more)%list (ex0, w0)
        = (Return None, (mkMockQueryExecutor (Ops ex0) (idx ex0 + 1), w2))).
Proof.
  intros Hok Hnop He Hne ex' out.
  assert (Hout : out = (((Exec_model_step op q;; Exec_args_step op args) w).1,
                        (ex', ((Exec_model_step op q;; Exec_args_step op args) w).2))).
  { subst out. rewrite (Exec_at_next _ _ _ _ _ _ Hok Hnop).
    unfold Exec_operation. by rewrite He. }
  split_and!.
  - intros Hlen. split.
    + rewrite Hout. destruct (Exec_model_step op q w) as [[[]|p] w1] eqn:Hstep.
      * rewrite (bind_return _ _ _ _ _ Hstep). cbv beta.
        rewrite Exec_args_step_length_differs by done. by eauto.
      * rewrite (bind_panicked _ _ _ _ _ Hstep). by eauto.
    + intros w1 Hstep. rewrite Hout, (bind_return _ _ _ _ _ Hstep). cbv beta.
      by rewrite Exec_args_step_length_differs.
  - intros Hlen w1 Hstep. rewrite (bind_return _ _ _ _ _ Hstep) in Hout.
    cbv beta in Hout. rewrite Exec_args_step_length_agrees in Hout by done.
    intros w2 Heach. split.
    + pose proof (assign_args_each args (exec_Args op) [] [] w1 w2 Heach) as Hloop.
      simpl in Hloop. rewrite app_nil_r in Hloop. by rewrite Hout, Hloop.
    + intros i t a v. by apply (assign_each_lookup args (exec_Args op) w1 w2).
  - intros. apply Scan_no_length_panic.
  - intros ctx0 q0 args0 more ex0 w0 sop w1 w2 Hok0 Hnop0 He0 Hstep Heach.
    rewrite (Scan_at_next _ _ _ _ _ _ Hok0 Hnop0).
    unfold Scan_operation. rewrite He0. rewrite (bind_return _ _ _ _ _ Hstep).
    cbv beta. unfold Scan_args_step.
    pose proof (assign_args_each args0 (scan_Args sop) [] more w1 w2 Heach) as Hloop.
    simpl in Hloop. by rewrite (bind_return _ _ _ _ _ Hloop).
Qed.

Lemma Exec_checks_args_length_witness :
  MockQueryExecutor_Exec Background (TestMocks.insert_query TestMocks.n_ptr) []
    (mkMockQueryExecutor TestMocks.exec_ops 3, TestMocks.world0)
  = (Panicked (PanicValue "operation.Args and args should have the same length"),
     (mkMockQueryExecutor TestMocks.exec_ops 4, TestMocks.world0))
  /\ (MockQueryExecutor_Exec Background (TestMocks.insert_query TestMocks.n_ptr)
        [TestMocks.s_ptr; TestMocks.f_ptr]
        (mkMockQueryExecutor TestMocks.exec_ops 3, TestMocks.world0)).1
     = Return (None, None)
  /\ heap (MockQueryExecutor_Exec Background (TestMocks.insert_query TestMocks.n_ptr)
        [TestMocks.s_ptr; TestMocks.f_ptr]
        (mkMockQueryExecutor TestMocks.exec_ops 3, TestMocks.world0)).2.2
       !! TestMocks.s_loc
     = Some (VString "hadouken").
Proof.
  set (op := mkMockExecOperation None
               [Some (VString "hadouken"); Some (VFloat64 TestMocks.pi_bits)] None None).
  set (q := TestMocks.insert_query TestMocks.n_ptr).
  set (w2 := write TestMocks.f_loc (VFloat64 TestMocks.pi_bits)
               (write TestMocks.s_loc (VString "hadouken") TestMocks.world0)).
  assert (Hok : slice_ok TestMocks.exec_ops)
    by (unfold slice_ok, len, max_int; simpl; lia).
  split.
  - destruct (Exec_checks_args_length Background
      (mkMockQueryExecutor TestMocks.exec_ops 3) TestMocks.world0 op q []
      Hok eq_refl eq_refl) as (H1 & _); [discriminate|].
    destruct H1 as [_ H1]; [discriminate|]. by apply H1.
  - destruct (Exec_checks_args_length Background
      (mkMockQueryExecutor TestMocks.exec_ops 3) TestMocks.world0 op q
      [TestMocks.s_ptr; TestMocks.f_ptr] Hok eq_refl eq_refl) as (_ & H2 & _);
      [discriminate|].
    destruct (H2 eq_refl TestMocks.world0 eq_refl w2 eq_refl) as [Hout Hheap].
    split.
    + by rewrite Hout.
    + rewrite Hout. apply (Hheap 0%nat TString TestMocks.s_loc (VString "hadouken"));
        try reflexivity.
      intros [|[|j]] x Hne; try done.
      intros [= <-] [t [= ]].
Defined.

(** C8 as stated fails: below, the operation's Error is nil, its Args is not
    empty and as long as args, and yet Exec does not return (op.Result,
    nil): [args[0]] is a string, not a pointer to one, and [assign] panics in
    [reflect]. *)
Lemma Exec_args_not_pointers_counterexample :
  let op := mkMockExecOperation None [Some (VString "hadouken")] None None in
  let args := [Some (VString "")] in
  let out := MockQueryExecutor_Exec Background (TestMocks.insert_query TestMocks.n_ptr)
               args (new_mock [ExecOperation op], TestMocks.world0) in
  exec_Error op = None
  /\ exec_Args op <> []
  /\ len (exec_Args op) = len args
  /\ out.1 = Panicked (ReflectError ElemOnNonPointer)
  /\ out.1 <> Return (exec_Result op, None).
Proof. vm_compute. split_and!; done. Qed.

Lemma mock_ignores_query_and_context_witness :
  (MockQueryExecutor_Exec Background (TestMocks.insert_query TestMocks.n_ptr) []
     (mkMockQueryExecutor TestMocks.exec_ops 2, TestMocks.world0)).1
  = Return (Some TestMocks.result_, None)
  /\ (MockQueryExecutor_Exec (WithValue Background "trace" "on")
        (TestMocks.insert_query TestMocks.m_ptr) [TestMocks.s_ptr]
        (mkMockQueryExecutor TestMocks.exec_ops 2, TestMocks.world0)).1
     = Return (Some TestMocks.result_, None)
  /\ (Some TestMocks.result_, None) = (Some TestMocks.result_, @None string).
Proof.
  split; [reflexivity|]. split; [reflexivity|].
  destruct (mock_ignores_query_and_context (mkMockQueryExecutor TestMocks.exec_ops 2))
    as (H & _).
  apply (H Background (WithValue Background "trace" "on")
           (TestMocks.insert_query TestMocks.n_ptr) (TestMocks.insert_query TestMocks.m_ptr)
           [] [TestMocks.s_ptr] TestMocks.world0 TestMocks.world0); reflexivity.
Defined.

(** * Further properties of the code *)

(** ** [assign] *)

(** X1. [assign] returns only if its destination is a non-nil pointer to a
    variable and its source holds a value (the value itself, or what a
    non-nil pointer points to), and it has then written exactly that value
    to the variable and done nothing else; and it does return when that
    value has the variable's type. *)
Theorem assign_returns dest src w :
  (forall w',
     assign (reflect.ValueOf dest) (reflect.ValueOf src) w = (Return tt, w') ->
     exists t a v,
       dest = Some (VPtr t (Some a))
       /\ is_Some (heap w !! a)
       /\ held_value src w = Some v
       /\ w' = write a v w)
  /\ (forall t a v,
       dest = Some (VPtr t (Some a)) ->
       is_Some (heap w !! a) ->
       held_type src = Some t ->
       held_value src w = Some v ->
       assign (reflect.ValueOf dest) (reflect.ValueOf src) w = (Return tt, write a v w)).
Proof.
  split.
  - intros w' (t & a & v & -> & Ha & _ & Hv & ->)%assign_return.
    by exists t, a, v.
  - intros t a v -> Ha Ht Hv. by apply assign_ok.
Qed.

Lemma assign_returns_witness :
  assign (reflect.ValueOf TestMocks.s_ptr) (reflect.ValueOf (Some (VString "hadouken")))
    TestMocks.world0
  = (Return tt, write TestMocks.s_loc (VString "hadouken") TestMocks.world0).
Proof.
  destruct (assign_returns TestMocks.s_ptr (Some (VString "hadouken")) TestMocks.world0)
    as [_ H].
  apply (H TString TestMocks.s_loc (VString "hadouken"));
    [reflexivity|vm_compute; eauto|reflexivity|reflexivity].
Defined.

(** X2. A destination that is not a non-nil pointer (a nil interface, a
    value passed instead of its address, a nil pointer) makes [assign] panic
    in [reflect], whatever the source, and the world is left as it was: the
    last two cases of the switch never assign. *)
Theorem assign_needs_pointer_destination dest src w :
  (forall t a, dest <> Some (VPtr t (Some a))) ->
  exists e,
    assign (reflect.ValueOf dest) (reflect.ValueOf src) w = (Panicked (ReflectError e), w).
Proof.
  intros Hdest.
  destruct dest as [[| | | | |t [a|]]|];
    try (by exfalso; eapply Hdest);
    destruct src as [[| | | | |t' [l|]]|];
    unfold assign; simpl; unfold mbind, M_bind, mret, M_ret, raise; simpl; eauto.
Qed.

Lemma assign_needs_pointer_destination_witness :
  exists e,
    assign (reflect.ValueOf (Some (VString ""))) (reflect.ValueOf (Some (VString "hadouken")))
      TestMocks.world0
    = (Panicked (ReflectError e), TestMocks.world0).
Proof.
  apply (assign_needs_pointer_destination (Some (VString "")) (Some (VString "hadouken"))
           TestMocks.world0).
  discriminate.
Defined.

Lemma write_dom a v w : is_Some (heap w !! a) -> dom (heap (write a v w)) = dom (heap w).
Proof.
  intros Ha%elem_of_dom. simpl. rewrite dom_insert_L.
  apply subseteq_union_1_L. by apply singleton_subseteq_l.
Qed.

Lemma assign_same_shape dest src w r w' :
  assign (reflect.ValueOf dest) (reflect.ValueOf src) w = (r, w') -> same_shape w w'.
Proof.
  destruct r as [[]|p].
  - intros (t & a & v & _ & Ha & _ & _ & ->)%assign_return.
    split; [by apply write_dom|done].
  - by intros [_ ->]%assign_panic.
Qed.

(** X3. Whether it returns or panics, [assign] neither creates nor removes a
    variable and leaves the database alone; when it panics, it has written
    nothing at all, and the panic comes from [reflect] or the runtime. *)
Theorem assign_keeps_shape dest src w r w' :
  assign (reflect.ValueOf dest) (reflect.ValueOf src) w = (r, w') ->
  same_shape w w'
  /\ (forall p, r = Panicked p -> w' = w /\ library_panic p).
Proof.
  intros Hrun. split; [by eapply assign_same_shape|].
  intros p ->. apply assign_panic in Hrun as [? ->]. done.
Qed.

Lemma assign_keeps_shape_witness :
  same_shape TestMocks.world0
    (write TestMocks.n_loc (TestMocks.model "Hello, world!" 33) TestMocks.world0).
Proof.
  apply (assign_keeps_shape TestMocks.n_ptr TestMocks.m_ptr TestMocks.world0 (Return tt)).
  reflexivity.
Defined.

Lemma assign_typed sigma dest src w r w' :
  heap_typed sigma w ->
  any_typed sigma dest ->
  any_typed sigma src ->
  assign (reflect.ValueOf dest) (reflect.ValueOf src) w = (r, w') ->
  heap_typed sigma w'.
Proof.
  intros Hw Hd Hs. destruct r as [[]|p]; [|by intros [_ ->]%assign_panic].
  intros (t & a & v & -> & Ha & Ht & Hv & ->)%assign_return.
  assert (type_of v = t) as Hty.
  { destruct src as [[| | | | |t' [l|]]|]; simpl in Ht, Hv; try discriminate Hv;
      try (injection Hv as <-; by injection Ht as <-).
    injection Ht as ->. apply Hw in Hv. rewrite (Hs t l eq_refl) in Hv. congruence. }
  intros b u. simpl. destruct (decide (a = b)) as [<-|Hne].
  - rewrite lookup_insert_eq. intros [= <-]. rewrite Hty. by apply Hd.
  - rewrite lookup_insert_ne by done. apply Hw.
Qed.

(** X4. [assign] keeps the variables well typed: if every variable holds a
    value of its declared type and the pointers handed to [assign] point to
    variables of their element type, the same is true afterwards, whether
    [assign] returned or panicked. *)
Theorem assign_keeps_types sigma dest src w r w' :
  heap_typed sigma w ->
  any_typed sigma dest ->
  any_typed sigma src ->
  assign (reflect.ValueOf dest) (reflect.ValueOf src) w = (r, w') ->
  heap_typed sigma w'
  /\ (forall t a, r = Return tt -> dest = Some (VPtr t (Some a)) ->
        exists v, heap w' !! a = Some v /\ type_of v = t).
Proof.
  intros Hw Hd Hs Hrun.
  pose proof (assign_typed sigma dest src w r w' Hw Hd Hs Hrun) as Hw'.
  split; [done|]. intros t a -> ->.
  apply assign_return in Hrun as (t' & a' & v & [= <- <-] & Ha & Ht & Hv & ->).
  exists v. split; [apply held_value_written with (t := t)|].
  pose proof (Hw' a v (held_value_written t a v w)) as Hv'.
  rewrite (Hd t a eq_refl) in Hv'. congruence.
Qed.

(** X5. Assigning the same source to the same destination a second time
    changes nothing. *)
Theorem assign_twice dest src w w' :
  assign (reflect.ValueOf dest) (reflect.ValueOf src) w = (Return tt, w') ->
  assign (reflect.ValueOf dest) (reflect.ValueOf src) w' = (Return tt, w').
Proof.
  intros (t & a & v & -> & Ha & Ht & Hv & ->)%assign_return.
  rewrite (assign_ok t a src v (write a v w)); try done.
  - f_equal. unfold write. simpl. f_equal. apply insert_insert_eq.
  - simpl. rewrite lookup_insert_eq. eauto.
  - destruct src as [[| | | | |t' [l|]]|]; simpl in Hv |- *; try done.
    destruct (decide (a = l)) as [<-|Hne].
    + by rewrite lookup_insert_eq.
    + by rewrite lookup_insert_ne.
Qed.

Lemma world0_typed : heap_typed TestMocks.sigma0 TestMocks.world0.
Proof.
  apply (bool_decide_unpack
    (map_Forall (fun a v => TestMocks.sigma0 !! a = Some (type_of v))
       (heap TestMocks.world0))).
  vm_compute. exact I.
Qed.

Lemma test_pointers_typed :
  any_typed TestMocks.sigma0 TestMocks.m_ptr
  /\ any_typed TestMocks.sigma0 TestMocks.n_ptr
  /\ any_typed TestMocks.sigma0 TestMocks.s_ptr
  /\ any_typed TestMocks.sigma0 TestMocks.f_ptr.
Proof. split_and!; intros t b [= <- <-]; reflexivity. Qed.

Lemma plain_typed sigma v : is_pointer v = false -> any_typed sigma (Some v).
Proof. intros Hv t b [= ->]. discriminate Hv. Qed.

Lemma nil_typed sigma : any_typed sigma None.
Proof. intros t b [=]. Qed.

Lemma assign_keeps_types_witness :
  heap_typed TestMocks.sigma0
    (write TestMocks.n_loc (TestMocks.model "Hello, world!" 33) TestMocks.world0).
Proof.
  destruct test_pointers_typed as (Hm & Hn & _).
  apply (assign_keeps_types TestMocks.sigma0 TestMocks.n_ptr TestMocks.m_ptr
           TestMocks.world0 (Return tt)); [apply world0_typed|done|done|reflexivity].
Defined.

Lemma assign_twice_witness :
  assign (reflect.ValueOf TestMocks.n_ptr) (reflect.ValueOf TestMocks.m_ptr)
    (write TestMocks.n_loc (TestMocks.model "Hello, world!" 33) TestMocks.world0)
  = (Return tt, write TestMocks.n_loc (TestMocks.model "Hello, world!" 33) TestMocks.world0).
Proof.
  apply (assign_twice TestMocks.n_ptr TestMocks.m_ptr TestMocks.world0). reflexivity.
Defined.

(** ** Calls and runs from any state *)

Lemma call_unfold c ex w :
  call c (ex, w) =
    match nextOp ex with
    | (Return nop, ex') =>
        ((call_operation nop c w).1, (ex', (call_operation nop c w).2))
    | (Panicked p, ex') => (Panicked p, (ex', w))
    end.
Proof.
  destruct c as [ctx q args|ctx q args|ctx q]; simpl; rewrite !map_result_eq.
  - rewrite Exec_unfold. destruct (nextOp ex) as [[nop|p] ex']; [|done].
    rewrite map_result_eq. by destruct (Exec_operation nop q args w) as [[?|?] ?].
  - rewrite Scan_unfold. destruct (nextOp ex) as [[nop|p] ex']; [|done].
    rewrite map_result_eq. by destruct (Scan_operation nop q args w) as [[?|?] ?].
  - rewrite Exists_unfold. destruct (nextOp ex) as [[nop|p] ex']; [|done].
    rewrite map_result_eq. by destruct (Exists_operation nop q w) as [[?|?] ?].
Qed.

Lemma nextOp_Ops ex : Ops (nextOp ex).2 = Ops ex.
Proof.
  unfold nextOp. case_bool_decide; [done|]. simpl. by destruct (index _ _).
Qed.

Lemma nextOp_elem ex nop ex' : nextOp ex = (Return nop, ex') -> nop ∈ Ops ex.
Proof.
  unfold nextOp. case_bool_decide; [discriminate|]. simpl.
  destruct (index _ _) as [x|] eqn:E; [|discriminate]. intros [= <- _].
  unfold index in E. case_bool_decide; [discriminate|].
  by apply list_elem_of_lookup_2 in E.
Qed.

Lemma same_shape_refl w : same_shape w w.
Proof. done. Qed.

Lemma same_shape_trans w1 w2 w3 : same_shape w1 w2 -> same_shape w2 w3 -> same_shape w1 w3.
Proof. intros [? ?] [? ?]. split; congruence. Qed.

Lemma assign_args_same_shape args vals : forall i w r w',
  assign_args args i vals w = (r, w') -> same_shape w w'.
Proof.
  induction vals as [|val rest IH]; intros i w r w'; simpl; [by intros [= <- <-]|].
  destruct (args !! i) as [a|]; [| by intros [= <- <-]].
  unfold mbind, M_bind.
  destruct (assign _ _ w) as [[[]|q] w1] eqn:E; apply assign_same_shape in E.
  - intros Hrest%IH. by eapply same_shape_trans.
  - by intros [= <- <-].
Qed.

Lemma model_value_any m w r w' : model_value m w = (r, w') -> w' = w.
Proof. destruct m; by intros [= <- <-]. Qed.

Lemma Exec_model_step_same_shape op q w r w' :
  Exec_model_step op q w = (r, w') -> same_shape w w'.
Proof.
  unfold Exec_model_step. destruct (exec_Model op); [| by intros [= <- <-]].
  unfold mbind, M_bind. destruct (model_value _ w) as [[qv|e] w1] eqn:E;
    apply model_value_any in E as ->.
  - apply assign_same_shape.
  - by intros [= <- <-].
Qed.

Lemma Scan_model_step_same_shape op q w r w' :
  Scan_model_step op q w = (r, w') -> same_shape w w'.
Proof.
  unfold Scan_model_step. destruct (scan_Model op); [| by intros [= <- <-]].
  unfold mbind, M_bind. destruct (model_value _ w) as [[qv|e] w1] eqn:E;
    apply model_value_any in E as ->.
  - apply assign_same_shape.
  - by intros [= <- <-].
Qed.

Lemma bind_same_shape {A B} (m : M World A) (k : A -> M World B) :
  (forall w r w', m w = (r, w') -> same_shape w w') ->
  (forall a w r w', k a w = (r, w') -> same_shape w w') ->
  forall w r w', (m ≫= k) w = (r, w') -> same_shape w w'.
Proof.
  intros Hm Hk w r w'. unfold mbind, M_bind.
  destruct (m w) as [[a|p] w1] eqn:E; apply Hm in E.
  - intros Hrest%Hk. by eapply same_shape_trans.
  - by intros [= <- <-].
Qed.

Lemma Exec_args_step_same_shape op args w r w' :
  Exec_args_step op args w = (r, w') -> same_shape w w'.
Proof.
  unfold Exec_args_step. case_match; [by intros [= <- <-]|].
  apply bind_same_shape.
  - apply assign_args_same_shape.
  - by intros [] w0 r0 w0' [= <- <-].
Qed.

Lemma Scan_args_step_same_shape op args w r w' :
  Scan_args_step op args w = (r, w') -> same_shape w w'.
Proof.
  unfold Scan_args_step. apply bind_same_shape.
  - apply assign_args_same_shape.
  - by intros [] w0 r0 w0' [= <- <-].
Qed.

Lemma map_result_snd {S A B} (f : A -> B) (m : M S A) s :
  (map_result f m s).2 = (m s).2.
Proof. rewrite map_result_eq. by destruct (m s) as [[?|?] ?]. Qed.

Lemma call_operation_same_shape nop c w : same_shape w (call_operation nop c w).2.
Proof.
  destruct c as [ctx q args|ctx q args|ctx q]; simpl; rewrite map_result_snd.
  - destruct nop as [|op| | |]; try done. unfold Exec_operation.
    destruct (exec_Error op); [done|].
    destruct ((Exec_model_step op q;; Exec_args_step op args) w) as [r w'] eqn:E.
    revert E. apply bind_same_shape.
    + apply Exec_model_step_same_shape.
    + intros _. apply Exec_args_step_same_shape.
  - destruct nop as [| |op| |]; try done. unfold Scan_operation.
    destruct (scan_Error op); [done|].
    destruct ((Scan_model_step op q;; Scan_args_step op args) w) as [r w'] eqn:E.
    revert E. apply bind_same_shape.
    + apply Scan_model_step_same_shape.
    + intros _. apply Scan_args_step_same_shape.
  - destruct nop as [| | |op|]; try done. by rewrite Exists_operation_match.
Qed.

Lemma call_same_shape c ex w :
  Ops (call c (ex, w)).2.1 = Ops ex /\ same_shape w (call c (ex, w)).2.2.
Proof.
  rewrite call_unfold. pose proof (nextOp_Ops ex) as HOps.
  destruct (nextOp ex) as [[nop|p] ex']; simpl in *; [|done].
  split; [done|]. apply call_operation_same_shape.
Qed.

(** X6. Through any sequence of calls, from any state, the mock keeps its
    script as it is, neither creates nor removes a variable, and leaves the
    database alone; and from a cursor within the script, the cursor ends at
    its start plus the number of calls, or at the end of the script if that
    comes first. *)
Theorem run_keeps_shape cs : forall ex w,
  Ops (run cs (ex, w)).2.1 = Ops ex
  /\ same_shape w (run cs (ex, w)).2.2
  /\ (forall i : nat,
        slice_ok (Ops ex) -> idx ex = Z.of_nat i -> (i <= length (Ops ex))%nat ->
        idx (run cs (ex, w)).2.1
        = Z.of_nat (Nat.min (i + length cs) (length (Ops ex)))).
Proof.
  induction cs as [|c cs IH]; intros ex w.
  - simpl. split_and!; try done. intros i _ -> Hi. f_equal. lia.
  - rewrite run_cons. cbn [snd].
    destruct (call_same_shape c ex w) as [HOps Hshape].
    destruct (call c (ex, w)) as [r [ex1 w1]] eqn:Hcall. cbn [fst snd] in *.
    destruct (IH ex1 w1) as (IH1 & IH2 & _). split_and!.
    + congruence.
    + by eapply same_shape_trans.
    + intros i Hok Hi Hle. destruct ex as [ops j]. simpl in *. subst j.
      pose proof (run_cursor ops (c :: cs) i w Hok Hle) as Hcur.
      rewrite run_cons, Hcall in Hcur. cbn [fst snd] in Hcur. by rewrite Hcur.
Qed.

Lemma run_keeps_shape_witness :
  idx (run TestMocks.scan_calls (new_mock TestMocks.scan_ops, TestMocks.world0)).2.1 = 4.
Proof.
  destruct (run_keeps_shape TestMocks.scan_calls (new_mock TestMocks.scan_ops)
              TestMocks.world0) as (_ & _ & H).
  apply (H 0%nat); [unfold slice_ok, len, max_int; simpl; lia|reflexivity|simpl; lia].
Defined.

(** X7. A mock whose script is used up stays so: every further call, of any
    of the three methods, panics with the same exhaustion message, and
    neither the mock nor the world changes. *)
Theorem exhausted_mock_stays_exhausted cs ex w :
  len (Ops ex) <= idx ex ->
  run cs (ex, w)
  = (replicate (length cs)
       (Panicked (PanicValue (exhausted_message (idx ex) (len (Ops ex))))),
     (ex, w)).
Proof.
  intros Hle. induction cs as [|c cs IH]; [done|].
  rewrite run_cons, call_exhausted by done. cbn [fst snd]. by rewrite IH.
Qed.

Lemma exhausted_mock_stays_exhausted_witness :
  run TestMocks.exists_calls (mkMockQueryExecutor TestMocks.exists_ops 4, TestMocks.world0)
  = (replicate 4 (Panicked (PanicValue
       "mocked query requested operation #4, but test only contains 4")),
     (mkMockQueryExecutor TestMocks.exists_ops 4, TestMocks.world0)).
Proof.
  apply (exhausted_mock_stays_exhausted TestMocks.exists_calls
           (mkMockQueryExecutor TestMocks.exists_ops 4) TestMocks.world0).
  vm_compute. discriminate.
Defined.

(** ** Types of the variables through calls *)

Lemma bind_typed {A B} sigma (m : M World A) (k : A -> M World B) :
  (forall w r w', heap_typed sigma w -> m w = (r, w') -> heap_typed sigma w') ->
  (forall a w r w', heap_typed sigma w -> k a w = (r, w') -> heap_typed sigma w') ->
  forall w r w', heap_typed sigma w -> (m ≫= k) w = (r, w') -> heap_typed sigma w'.
Proof.
  intros Hm Hk w r w' Hw. unfold mbind, M_bind.
  destruct (m w) as [[a|p] w1] eqn:E; apply Hm in E; try done.
  - by apply Hk.
  - by intros [= <- <-].
Qed.

Lemma assign_args_typed sigma args vals :
  Forall (any_typed sigma) args ->
  Forall (any_typed sigma) vals ->
  forall i w r w',
    heap_typed sigma w -> assign_args args i vals w = (r, w') -> heap_typed sigma w'.
Proof.
  intros Hargs Hvals. induction Hvals as [|val rest Hval Hrest IH]; intros i w r w' Hw; simpl.
  { by intros [= <- <-]. }
  destruct (args !! i) as [a|] eqn:Ha; [| by intros [= <- <-]].
  pose proof (Forall_lookup_1 _ _ _ _ Hargs Ha) as Hta.
  revert Hw. apply bind_typed.
  - intros w0 r0 w0' Hw0. by apply assign_typed.
  - intros _ w0 r0 w0'. apply IH.
Qed.

Lemma Exec_model_step_typed sigma op q w r w' :
  any_typed sigma (exec_Model op) ->
  model_typed sigma (ExecQuery_GetModel q) ->
  heap_typed sigma w ->
  Exec_model_step op q w = (r, w') -> heap_typed sigma w'.
Proof.
  intros Hop Hq Hw. unfold Exec_model_step.
  destruct (exec_Model op) as [mv|] eqn:Em; [| by intros [= <- <-]].
  unfold mbind, M_bind. destruct (model_value _ w) as [[qv|e] w1] eqn:E.
  - apply model_value_return in E as [(qm & Hqm & ->) ->].
    apply assign_typed; try done. by apply Hq.
  - apply model_value_any in E as ->. by intros [= <- <-].
Qed.

Lemma Scan_model_step_typed sigma op q w r w' :
  any_typed sigma (scan_Model op) ->
  model_typed sigma (ScanQuery_GetModel q) ->
  heap_typed sigma w ->
  Scan_model_step op q w = (r, w') -> heap_typed sigma w'.
Proof.
  intros Hop Hq Hw. unfold Scan_model_step.
  destruct (scan_Model op) as [mv|] eqn:Em; [| by intros [= <- <-]].
  unfold mbind, M_bind. destruct (model_value _ w) as [[qv|e] w1] eqn:E.
  - apply model_value_return in E as [(qm & Hqm & ->) ->].
    apply assign_typed; try done. by apply Hq.
  - apply model_value_any in E as ->. by intros [= <- <-].
Qed.

Lemma call_operation_typed sigma nop c w :
  operation_typed sigma nop ->
  call_typed sigma c ->
  heap_typed sigma w ->
  heap_typed sigma (call_operation nop c w).2.
Proof.
  intros [Hmodel Hargs] Hc Hw.
  destruct c as [ctx q args|ctx q args|ctx q]; simpl; rewrite map_result_snd.
  - destruct Hc as [Hq Hcargs].
    destruct nop as [|op| | |]; try done. simpl in Hmodel, Hargs.
    unfold Exec_operation. destruct (exec_Error op); [done|].
    destruct ((Exec_model_step op q;; Exec_args_step op args) w) as [r w'] eqn:E.
    revert Hw E. apply bind_typed.
    + intros w0 r0 w0'. by apply Exec_model_step_typed.
    + intros _ w0 r0 w0' Hw0. unfold Exec_args_step.
      case_match; [by intros [= <- <-]|].
      revert Hw0. apply bind_typed.
      * by apply assign_args_typed.
      * by intros [] w1 r1 w1' Hw1 [= <- <-].
  - destruct Hc as [Hq Hcargs].
    destruct nop as [| |op| |]; try done. simpl in Hmodel, Hargs.
    unfold Scan_operation. destruct (scan_Error op); [done|].
    destruct ((Scan_model_step op q;; Scan_args_step op args) w) as [r w'] eqn:E.
    revert Hw E. apply bind_typed.
    + intros w0 r0 w0'. by apply Scan_model_step_typed.
    + intros _ w0 r0 w0' Hw0. unfold Scan_args_step.
      revert Hw0. apply bind_typed.
      * by apply assign_args_typed.
      * by intros [] w1 r1 w1' Hw1 [= <- <-].
  - destruct nop as [| | |op|]; try done. by rewrite Exists_operation_match.
Qed.

(** X8. The mock keeps the variables well typed through any sequence of
    calls: if every variable holds a value of its declared type, and the
    pointers in the script (the Model and Args of its operations), in the
    queries' models and in the calls' args point to variables of their
    element type, then after the calls, whichever returned or panicked,
    every variable still holds a value of its declared type. *)
Theorem run_keeps_types sigma cs : forall ex w,
  heap_typed sigma w ->
  Forall (operation_typed sigma) (Ops ex) ->
  Forall (call_typed sigma) cs ->
  heap_typed sigma (run cs (ex, w)).2.2.
Proof.
  induction cs as [|c cs IH]; intros ex w Hw Hops Hcs; [done|].
  apply Forall_cons in Hcs as [Hc Hcs].
  rewrite run_cons. cbn [snd].
  pose proof (call_same_shape c ex w) as [HOps _].
  assert (Hw1 : heap_typed sigma (call c (ex, w)).2.2).
  { rewrite call_unfold. destruct (nextOp ex) as [[nop|p] ex'] eqn:Hn; [|done].
    cbn [snd]. apply call_operation_typed; try done.
    apply nextOp_elem in Hn. by eapply Forall_forall in Hops. }
  destruct (call c (ex, w)) as [r [ex1 w1]]. cbn [fst snd] in *.
  apply IH; try done. by rewrite HOps.
Qed.

Lemma run_keeps_types_witness :
  heap_typed TestMocks.sigma0
    (run TestMocks.scan_calls (new_mock TestMocks.scan_ops, TestMocks.world0)).2.2.
Proof.
  destruct test_pointers_typed as (Hm & Hn & Hs & Hf).
  apply (run_keeps_types TestMocks.sigma0 TestMocks.scan_calls
           (new_mock TestMocks.scan_ops) TestMocks.world0).
  - apply world0_typed.
  - repeat apply Forall_cons_2; try apply Forall_nil_2; split; simpl;
      repeat apply Forall_cons_2; try apply Forall_nil_2;
      try apply nil_typed; try done; by apply plain_typed.
  - repeat apply Forall_cons_2; try apply Forall_nil_2; split; simpl;
      repeat apply Forall_cons_2; try apply Forall_nil_2; try done;
      by intros m' [= <-].
Defined.

(** ** What the methods hand back *)

(** X9. When Exec consumes a MockExecOperation and returns, it returns
    (nil, op.Error) if the Error is not nil and (op.Result, nil) otherwise;
    when Scan consumes a MockScanOperation and returns, it returns op.Error.
    An operation with a nil Error, a nil Model and no Args makes Exec and
    Scan return and leave the world as it was, whatever the query and
    however many args the call supplies, pointers or not; Exists with a nil
    Error returns (op.Exists, nil) and leaves the world as it was. *)
Theorem scripted_result_is_returned ctx ex w :
  slice_ok (Ops ex) ->
  let ex' := mkMockQueryExecutor (Ops ex) (idx ex + 1) in
  (forall op q args,
     index (Ops ex) (idx ex) = Some (ExecOperation op) ->
     (forall r, (MockQueryExecutor_Exec ctx q args (ex, w)).1 = Return r ->
        r = match exec_Error op with
            | Some e => (None, Some e)
            | None => (exec_Result op, None)
            end)
     /\ (exec_Error op = None -> exec_Model op = None -> exec_Args op = [] ->
         MockQueryExecutor_Exec ctx q args (ex, w)
         = (Return (exec_Result op, None), (ex', w))))
  /\ (forall op q args,
     index (Ops ex) (idx ex) = Some (ScanOperation op) ->
     (forall r, (MockQueryExecutor_Scan ctx q args (ex, w)).1 = Return r ->
        r = scan_Error op)
     /\ (scan_Error op = None -> scan_Model op = None -> scan_Args op = [] ->
         MockQueryExecutor_Scan ctx q args (ex, w) = (Return None, (ex', w))))
  /\ (forall op q,
     index (Ops ex) (idx ex) = Some (ExistsOperation op) ->
     exists_Error op = None ->
     MockQueryExecutor_Exists ctx q (ex, w) = (Return (exists_Exists op, None), (ex', w))).
Proof.
  intros Hok ex'. split_and!.
  - intros op q args Hnop. rewrite (Exec_at_next _ _ _ _ _ _ Hok Hnop). split.
    + intros r. cbn [fst].
      destruct (Exec_operation (ExecOperation op) q args w) as [o w1] eqn:E.
      simpl. intros ->. by apply Exec_operation_return in E as (op' & [= <-] & ->).
    + intros He Hm Ha. unfold Exec_operation, Exec_model_step, Exec_args_step.
      by rewrite He, Hm, Ha.
  - intros op q args Hnop. rewrite (Scan_at_next _ _ _ _ _ _ Hok Hnop). split.
    + intros r. cbn [fst].
      destruct (Scan_operation (ScanOperation op) q args w) as [o w1] eqn:E.
      simpl. intros ->. by apply Scan_operation_return in E as (op' & [= <-] & ->).
    + intros He Hm Ha. unfold Scan_operation, Scan_model_step, Scan_args_step.
      by rewrite He, Hm, Ha.
  - intros op q Hnop He. rewrite (Exists_at_next _ _ _ _ _ Hok Hnop).
    rewrite Exists_operation_match. by rewrite He.
Qed.

Lemma scripted_result_is_returned_witness :
  MockQueryExecutor_Exists Background (TestMocks.select_exists TestMocks.n_ptr)
    (mkMockQueryExecutor TestMocks.exists_ops 2, TestMocks.world0)
  = (Return (true, None), (mkMockQueryExecutor TestMocks.exists_ops 3, TestMocks.world0)).
Proof.
  destruct (scripted_result_is_returned Background
              (mkMockQueryExecutor TestMocks.exists_ops 2) TestMocks.world0)
    as (_ & _ & H); [unfold slice_ok, len, max_int; simpl; lia|].
  apply (H (mkMockExistsOperation true None)); reflexivity.
Defined.

(** ** The loop over [op.Args], continued *)

Lemma assign_args_app args vals1 vals2 : forall i w,
  assign_args args i (vals1 ++ vals2)%list w
  = (assign_args args i vals1;; assign_args args (i + length vals1) vals2) w.
Proof.
  induction vals1 as [|val rest IH]; intros i w; simpl.
  - unfold mbind, M_bind, mret, M_ret. by rewrite Nat.add_0_r.
  - destruct (args !! i) as [a|]; [|done]. unfold mbind, M_bind.
    destruct (assign _ _ w) as [[[]|p] w1]; [|done].
    rewrite IH. unfold mbind, M_bind.
    by replace (S i + length rest)%nat with (i + S (length rest))%nat by lia.
Qed.

(** X10. Scan has no length check: when op.Args has more entries than the
    call has args, and the args supplied can be assigned, Scan assigns them
    all, then reaches past the end of args and panics with index out of
    range; the writes made before the panic stay. *)
Theorem Scan_overflow_keeps_writes ctx ex w op q args vals more w1 w2 :
  slice_ok (Ops ex) ->
  index (Ops ex) (idx ex) = Some (ScanOperation op) ->
  scan_Error op = None ->
  Scan_model_step op q w = (Return tt, w1) ->
  scan_Args op = (vals ++ more)%list ->
  more <> [] ->
  assign_each args vals w1 = Some w2 ->
  MockQueryExecutor_Scan ctx q args (ex, w)
  = (Panicked (RuntimeError IndexOutOfRange),
     (mkMockQueryExecutor (Ops ex) (idx ex + 1), w2)).
Proof.
  intros Hok Hnop He Hstep Hargs Hmore Heach.
  rewrite (Scan_at_next _ _ _ _ _ _ Hok Hnop).
  unfold Scan_operation. rewrite He, (bind_return _ _ _ _ _ Hstep). cbv beta.
  unfold Scan_args_step. rewrite Hargs.
  pose proof (assign_args_each args vals [] [] w1 w2 Heach) as Hloop.
  simpl in Hloop. rewrite app_nil_r in Hloop.
  assert (Hpanic : assign_args args 0 (vals ++ more)%list w1
                   = (Panicked (RuntimeError IndexOutOfRange), w2)).
  { rewrite assign_args_app, (bind_return _ _ _ _ _ Hloop). cbv beta.
    destruct more as [|x more']; [done|]. simpl.
    rewrite <- (assign_each_length _ _ _ _ Heach).
    by rewrite (lookup_ge_None_2 args (length args)) by lia. }
  by rewrite (bind_panicked _ _ _ _ _ Hpanic).
Qed.

Lemma Scan_overflow_keeps_writes_witness :
  MockQueryExecutor_Scan Background (TestMocks.select_scan TestMocks.n_ptr)
    [TestMocks.s_ptr]
    (mkMockQueryExecutor TestMocks.scan_ops 3, TestMocks.world0)
  = (Panicked (RuntimeError IndexOutOfRange),
     (mkMockQueryExecutor TestMocks.scan_ops 4,
      write TestMocks.s_loc (VString "hadouken")
        (write TestMocks.n_loc (TestMocks.model "Hello, world!" 33) TestMocks.world0))).
Proof.
  apply (Scan_overflow_keeps_writes Background
           (mkMockQueryExecutor TestMocks.scan_ops 3) TestMocks.world0
           (mkMockScanOperation TestMocks.m_ptr
              [Some (VString "hadouken"); Some (VFloat64 TestMocks.pi_bits)] None)
           (TestMocks.select_scan TestMocks.n_ptr) [TestMocks.s_ptr]
           [Some (VString "hadouken")] [Some (VFloat64 TestMocks.pi_bits)]
           (write TestMocks.n_loc (TestMocks.model "Hello, world!" 33) TestMocks.world0));
    try reflexivity.
  - unfold slice_ok, len, max_int. simpl. lia.
  - discriminate.
Defined.

(** ** Exec and Scan on the same Model pointer *)

(** X11. What Exec captures, a later Scan hands on: when an Exec operation
    and the Scan operation after it carry the same Model pointer, the value
    the first query's model held when Exec was called is, after both calls,
    in the second query's model (and in the variable the operations' Model
    points to), and both calls return. *)
Theorem Exec_then_Scan_hands_on ops (i : nat) eop sop qe qs ctx1 ctx2 args1 args2
    t m n k v w :
  slice_ok ops ->
  ops !! i = Some (ExecOperation eop) ->
  ops !! S i = Some (ScanOperation sop) ->
  exec_Error eop = None -> exec_Args eop = [] ->
  scan_Error sop = None -> scan_Args sop = [] ->
  exec_Model eop = Some (VPtr t (Some m)) ->
  scan_Model sop = Some (VPtr t (Some m)) ->
  ExecQuery_GetModel qe = Some (mkModel (Some (VPtr t (Some n)))) ->
  ScanQuery_GetModel qs = Some (mkModel (Some (VPtr t (Some k)))) ->
  heap w !! n = Some v ->
  is_Some (heap w !! m) ->
  is_Some (heap w !! k) ->
  let out := run [CallExec ctx1 qe args1; CallScan ctx2 qs args2]
                 (mkMockQueryExecutor ops (Z.of_nat i), w) in
  out = ([Return (ExecReturned (exec_Result eop) None); Return (ScanReturned None)],
         (mkMockQueryExecutor ops (Z.of_nat i + 2), write k v (write m v w)))
  /\ heap out.2.2 !! k = Some v.
Proof.
  intros Hok He Hs Hee Hea Hse Hsa Hem Hsm Hqe Hqs Hn Hm Hk out.
  assert (Hexec : call (CallExec ctx1 qe args1) (mkMockQueryExecutor ops (Z.of_nat i), w)
                  = (Return (ExecReturned (exec_Result eop) None),
                     (mkMockQueryExecutor ops (Z.of_nat (S i)), write m v w))).
  { rewrite (call_next _ _ _ _ _ Hok He). simpl. rewrite !map_result_eq.
    unfold Exec_operation. rewrite Hee.
    rewrite (bind_return _ _ _ _ _
      (Exec_model_step_ok eop qe _ t m v w Hem Hqe Hm eq_refl Hn)). cbv beta.
    unfold Exec_args_step. rewrite Hea. simpl.
    do 3 f_equal. lia. }
  assert (Hm' : is_Some (heap (write m v w) !! k)).
  { simpl. destruct (decide (m = k)) as [->|Hne].
    - rewrite lookup_insert_eq. eauto.
    - by rewrite lookup_insert_ne. }
  assert (Hscan : call (CallScan ctx2 qs args2)
                    (mkMockQueryExecutor ops (Z.of_nat (S i)), write m v w)
                  = (Return (ScanReturned None),
                     (mkMockQueryExecutor ops (Z.of_nat i + 2), write k v (write m v w)))).
  { rewrite (call_next _ _ _ _ _ Hok Hs). simpl. rewrite !map_result_eq.
    unfold Scan_operation. rewrite Hse.
    assert (Hstep : Scan_model_step sop qs (write m v w)
                    = (Return tt, write k v (write m v w))).
    { apply (Scan_model_step_ok sop qs (mkModel (Some (VPtr t (Some k)))) t k v);
        try done.
      - by rewrite Hsm.
      - by rewrite Hsm.
      - rewrite Hsm. apply held_value_written. }
    rewrite (bind_return _ _ _ _ _ Hstep). cbv beta.
    unfold Scan_args_step. rewrite Hsa. simpl.
    do 3 f_equal. lia. }
  assert (Hout : out = ([Return (ExecReturned (exec_Result eop) None);
                         Return (ScanReturned None)],
                        (mkMockQueryExecutor ops (Z.of_nat i + 2),
                         write k v (write m v w)))).
  { subst out. rewrite run_cons, Hexec. cbn [fst snd].
    rewrite run_cons, Hscan. done. }
  split; [done|]. rewrite Hout. apply lookup_insert_eq.
Qed.

Lemma Exec_then_Scan_hands_on_witness :
  heap (run [CallExec Background (TestMocks.insert_query TestMocks.n_ptr) [];
             CallScan Background (TestMocks.select_scan TestMocks.m_ptr) []]
            (mkMockQueryExecutor
               [ExecOperation (mkMockExecOperation TestMocks.m_ptr [] None None);
                ScanOperation (mkMockScanOperation TestMocks.m_ptr [] None)] 0,
             TestMocks.world0)).2.2 !! TestMocks.m_loc
  = Some (TestMocks.model "" 0).
Proof.
  apply (Exec_then_Scan_hands_on
           [ExecOperation (mkMockExecOperation TestMocks.m_ptr [] None None);
            ScanOperation (mkMockScanOperation TestMocks.m_ptr [] None)] 0
           (mkMockExecOperation TestMocks.m_ptr [] None None)
           (mkMockScanOperation TestMocks.m_ptr [] None)
           (TestMocks.insert_query TestMocks.n_ptr)
           (TestMocks.select_scan TestMocks.m_ptr) Background Background [] []
           (TStruct "bunoffe.model") TestMocks.m_loc TestMocks.n_loc TestMocks.m_loc
           (TestMocks.model "" 0) TestMocks.world0); try reflexivity.
  - unfold slice_ok, len, max_int. simpl. lia.
  - vm_compute. eauto.
  - vm_compute. eauto.
Defined.

(** ** Bunoffe over the mock *)

Lemma Exec_without_args ctx q ex w op :
  slice_ok (Ops ex) ->
  index (Ops ex) (idx ex) = Some (ExecOperation op) ->
  exec_Error op = None ->
  exec_Args op <> [] ->
  panics (MockQueryExecutor_Exec ctx q [] (ex, w))
  /\ (exec_Model op = None ->
      MockQueryExecutor_Exec ctx q [] (ex, w)
      = (Panicked (PanicValue args_length_message),
         (mkMockQueryExecutor (Ops ex) (idx ex + 1), w))).
Proof.
  intros Hok Hnop He Hargs.
  assert (Hlen : len (exec_Args op) <> len (@nil (option value))).
  { unfold len. destruct (exec_Args op); [done|simpl; lia]. }
  rewrite (Exec_at_next _ _ _ _ _ _ Hok Hnop).
  unfold Exec_operation. rewrite He. split.
  - destruct (Exec_model_step op q w) as [[[]|p] w1] eqn:Hstep.
    + rewrite (bind_return _ _ _ _ _ Hstep). cbv beta.
      rewrite Exec_args_step_length_differs by done. by eexists.
    + rewrite (bind_panicked _ _ _ _ _ Hstep). by eexists.
  - intros Hm. unfold Exec_model_step. rewrite Hm.
    unfold mbind, M_bind, mret, M_ret.
    by rewrite Exec_args_step_length_differs.
Qed.

Lemma Scan_without_args ctx q ex w op :
  slice_ok (Ops ex) ->
  index (Ops ex) (idx ex) = Some (ScanOperation op) ->
  scan_Error op = None ->
  scan_Args op <> [] ->
  (exists p, (MockQueryExecutor_Scan ctx q [] (ex, w)).1 = Panicked p /\ library_panic p)
  /\ (scan_Model op = None ->
      MockQueryExecutor_Scan ctx q [] (ex, w)
      = (Panicked (RuntimeError IndexOutOfRange),
         (mkMockQueryExecutor (Ops ex) (idx ex + 1), w))).
Proof.
  intros Hok Hnop He Hargs.
  assert (Hloop : forall w1, Scan_args_step op [] w1
                             = (Panicked (RuntimeError IndexOutOfRange), w1)).
  { intros w1. unfold Scan_args_step. by destruct (scan_Args op). }
  rewrite (Scan_at_next _ _ _ _ _ _ Hok Hnop).
  unfold Scan_operation. rewrite He. split.
  - destruct (Scan_model_step op q w) as [[[]|p] w1] eqn:Hstep.
    + rewrite (bind_return _ _ _ _ _ Hstep). cbv beta. rewrite Hloop. by eexists.
    + rewrite (bind_panicked _ _ _ _ _ Hstep).
      apply Scan_model_step_panic in Hstep as [? _]. by eexists.
  - intros Hm. unfold Scan_model_step. rewrite Hm.
    unfold mbind, M_bind, mret, M_ret. by rewrite Hloop.
Qed.

(** X12. Bunoffe hands its condition arguments to Where and none to Exec,
    so under the mock an operation with a nil Error and Args that are not
    empty cannot be satisfied by SelectWhere, SelectWherePK, Insert, Update
    or DeleteWherePK: each of them panics, and when the operation has no
    Model, with the length message and the world untouched. *)
Theorem Bunoffe_Exec_methods_reject_Args db ctx ex w op model cond args pks :
  slice_ok (Ops ex) ->
  index (Ops ex) (idx ex) = Some (ExecOperation op) ->
  exec_Error op = None ->
  exec_Args op <> [] ->
  let b := mocked db in
  let length_panic :=
    (@Panicked (sql_Result * error) (PanicValue args_length_message),
     (mkMockQueryExecutor (Ops ex) (idx ex + 1), w)) in
  (panics (Bunoffe_SelectWhere b ctx model cond args (ex, w))
   /\ panics (Bunoffe_SelectWherePK b ctx model pks (ex, w))
   /\ panics (Bunoffe_Insert b ctx model (ex, w))
   /\ panics (Bunoffe_Update b ctx model (ex, w))
   /\ panics (Bunoffe_DeleteWherePK b ctx model pks (ex, w)))
  /\ (exec_Model op = None ->
      Bunoffe_SelectWhere b ctx model cond args (ex, w) = length_panic
      /\ Bunoffe_SelectWherePK b ctx model pks (ex, w) = length_panic
      /\ Bunoffe_Insert b ctx model (ex, w) = length_panic
      /\ Bunoffe_Update b ctx model (ex, w) = length_panic
      /\ Bunoffe_DeleteWherePK b ctx model pks (ex, w) = length_panic).
Proof.
  intros Hok Hnop He Hargs b length_panic.
  split; [split_and!|intros Hm; split_and!];
    unfold Bunoffe_SelectWhere, Bunoffe_SelectWherePK, Bunoffe_Insert,
      Bunoffe_Update, Bunoffe_DeleteWherePK; simpl;
    try (by apply (Exec_without_args _ _ ex w op));
    by apply (Exec_without_args _ _ ex w op).
Qed.

Lemma Bunoffe_Exec_methods_reject_Args_witness :
  Bunoffe_Insert (mocked TestMocks.bundb) Background TestMocks.n_ptr
    (mkMockQueryExecutor TestMocks.exec_ops 3, TestMocks.world0)
  = (Panicked (PanicValue "operation.Args and args should have the same length"),
     (mkMockQueryExecutor TestMocks.exec_ops 4, TestMocks.world0)).
Proof.
  destruct (Bunoffe_Exec_methods_reject_Args TestMocks.bundb Background
              (mkMockQueryExecutor TestMocks.exec_ops 3) TestMocks.world0
              (mkMockExecOperation None
                 [Some (VString "hadouken"); Some (VFloat64 TestMocks.pi_bits)] None None)
              TestMocks.n_ptr "" [] []) as [_ H];
    [unfold slice_ok, len, max_int; simpl; lia|reflexivity|reflexivity|discriminate|].
  by destruct (H eq_refl) as (_ & _ & H3 & _).
Defined.

(** X13. Likewise ScanWhere and ScanWherePK hand no args to Scan, so under
    the mock a MockScanOperation with a nil Error and Args that are not
    empty makes them panic, in the runtime or in [reflect]: with index out
    of range and the world untouched when the operation has no Model. *)
Theorem Bunoffe_Scan_methods_reject_Args db ctx ex w op model cond condArgs pks :
  slice_ok (Ops ex) ->
  index (Ops ex) (idx ex) = Some (ScanOperation op) ->
  scan_Error op = None ->
  scan_Args op <> [] ->
  let b := mocked db in
  let index_panic :=
    (@Panicked error (RuntimeError IndexOutOfRange),
     (mkMockQueryExecutor (Ops ex) (idx ex + 1), w)) in
  (exists p, (Bunoffe_ScanWhere b ctx model cond condArgs (ex, w)).1 = Panicked p
             /\ library_panic p)
  /\ (exists p, (Bunoffe_ScanWherePK b ctx model pks (ex, w)).1 = Panicked p
                /\ library_panic p)
  /\ (scan_Model op = None ->
      Bunoffe_ScanWhere b ctx model cond condArgs (ex, w) = index_panic
      /\ Bunoffe_ScanWherePK b ctx model pks (ex, w) = index_panic).
Proof.
  intros Hok Hnop He Hargs b index_panic.
  split_and!; [| |intros Hm; split];
    unfold Bunoffe_ScanWhere, Bunoffe_ScanWherePK; simpl;
    by apply (Scan_without_args _ _ ex w op).
Qed.

Lemma Bunoffe_Scan_methods_reject_Args_witness :
  Bunoffe_ScanWherePK (mocked TestMocks.bundb) Background TestMocks.n_ptr []
    (new_mock [ScanOperation (mkMockScanOperation None [Some (VString "hadouken")] None)],
     TestMocks.world0)
  = (Panicked (RuntimeError IndexOutOfRange),
     (mkMockQueryExecutor
        [ScanOperation (mkMockScanOperation None [Some (VString "hadouken")] None)] 1,
      TestMocks.world0)).
Proof.
  destruct (Bunoffe_Scan_methods_reject_Args TestMocks.bundb Background
              (new_mock [ScanOperation
                 (mkMockScanOperation None [Some (VString "hadouken")] None)])
              TestMocks.world0
              (mkMockScanOperation None [Some (VString "hadouken")] None)
              TestMocks.n_ptr "" [] []) as (_ & _ & H);
    [unfold slice_ok, len, max_int; simpl; lia|reflexivity|reflexivity|discriminate|].
  by destruct (H eq_refl) as [_ H2].
Defined.

(** X14. Under the mock ScanWhere and ScanWherePK fill the caller's model:
    when the model is a pointer to a struct variable, the queries built on it
    hand it back from GetModel().Value() (as bun's do for a pointer to a
    struct), and the operation consumed is a MockScanOperation with a nil
    Error, no Args, and a Model holding a value of that struct type, both
    return nil and the variable holds that value; nothing else changes but
    the cursor. *)
Theorem Bunoffe_Scan_methods_fill_model db ctx ex w op name a v cond condArgs pks :
  let model := Some (VPtr (TStruct name) (Some a)) in
  registers_model db model ->
  slice_ok (Ops ex) ->
  index (Ops ex) (idx ex) = Some (ScanOperation op) ->
  scan_Error op = None ->
  scan_Args op = [] ->
  held_type (scan_Model op) = Some (TStruct name) ->
  held_value (scan_Model op) w = Some v ->
  is_Some (heap w !! a) ->
  let b := mocked db in
  let filled := (@Return error None,
                 (mkMockQueryExecutor (Ops ex) (idx ex + 1), write a v w)) in
  Bunoffe_ScanWhere b ctx model cond condArgs (ex, w) = filled
  /\ Bunoffe_ScanWherePK b ctx model pks (ex, w) = filled.
Proof.
  intros model (Hwhere & Hpk & _) Hok Hnop He Hargs Ht Hv Ha b filled.
  assert (Hm : scan_Model op <> None) by (destruct (scan_Model op); done).
  assert (Hscan : forall q, ScanQuery_GetModel q = Some (mkModel model) ->
                    MockQueryExecutor_Scan ctx q [] (ex, w) = filled).
  { intros q Hq. rewrite (Scan_at_next _ _ _ _ _ _ Hok Hnop).
    unfold Scan_operation. rewrite He.
    rewrite (bind_return _ _ _ _ _
      (Scan_model_step_ok op q (mkModel model) (TStruct name) a v w
         Hm Hq eq_refl Ha Ht Hv)).
    cbv beta. unfold Scan_args_step. by rewrite Hargs. }
  split; unfold Bunoffe_ScanWhere, Bunoffe_ScanWherePK; simpl; by apply Hscan.
Qed.

Lemma bundb_registers_model name target :
  registers_model TestMocks.bundb (Some (VPtr (TStruct name) target)).
Proof. split_and!; reflexivity. Qed.

(** On a model bun does not register, the built query has no model, and
    the mock's model step panics on [q.GetModel().Value()]. *)
Example ScanWherePK_pointer_to_string :
  Bunoffe_ScanWherePK (mocked TestMocks.bundb) Background TestMocks.s_ptr []
    (new_mock [ScanOperation (mkMockScanOperation (Some (VString "hadouken")) [] None)],
     TestMocks.world0)
  = (Panicked (RuntimeError NilDereference),
     (mkMockQueryExecutor
        [ScanOperation (mkMockScanOperation (Some (VString "hadouken")) [] None)] 1,
      TestMocks.world0)).
Proof. reflexivity. Qed.

Example Insert_model_by_value :
  Bunoffe_Insert (mocked TestMocks.bundb) Background
    (Some (TestMocks.model "Hello, world!" 33))
    (new_mock [ExecOperation (mkMockExecOperation TestMocks.m_ptr [] None None)],
     TestMocks.world0)
  = (Panicked (RuntimeError NilDereference),
     (mkMockQueryExecutor
        [ExecOperation (mkMockExecOperation TestMocks.m_ptr [] None None)] 1,
      TestMocks.world0)).
Proof. reflexivity. Qed.

Lemma Bunoffe_Scan_methods_fill_model_witness :
  Bunoffe_ScanWherePK (mocked TestMocks.bundb) Background TestMocks.n_ptr []
    (mkMockQueryExecutor TestMocks.scan_ops 2, TestMocks.world0)
  = (Return None,
     (mkMockQueryExecutor TestMocks.scan_ops 3,
      write TestMocks.n_loc (TestMocks.model "Hello, world!" 33) TestMocks.world0)).
Proof.
  destruct (Bunoffe_Scan_methods_fill_model TestMocks.bundb Background
              (mkMockQueryExecutor TestMocks.scan_ops 2) TestMocks.world0
              (mkMockScanOperation TestMocks.m_ptr [] None)
              "bunoffe.model" TestMocks.n_loc
              (TestMocks.model "Hello, world!" 33) "" [] []) as [_ H];
    [ apply bundb_registers_model
    | unfold slice_ok, len, max_int; simpl; lia
    | reflexivity | reflexivity | reflexivity | reflexivity | reflexivity
    | vm_compute; eauto
    | exact H ].
Defined.

(** X15. Under the mock Insert lets the test see what was inserted: when
    the model is a pointer to a struct variable, the query built on it hands
    it back from GetModel().Value() (as bun's does for a pointer to a
    struct), and the operation consumed is a MockExecOperation with a nil
    Error, no Args, and a Model pointing to a variable of that struct type,
    Insert returns (op.Result, nil) and that variable holds the value the
    inserted struct held. *)
Theorem Bunoffe_Insert_captures_model db ctx ex w op name m n v :
  let model := Some (VPtr (TStruct name) (Some n)) in
  registers_model db model ->
  slice_ok (Ops ex) ->
  index (Ops ex) (idx ex) = Some (ExecOperation op) ->
  exec_Error op = None ->
  exec_Args op = [] ->
  exec_Model op = Some (VPtr (TStruct name) (Some m)) ->
  is_Some (heap w !! m) ->
  heap w !! n = Some v ->
  Bunoffe_Insert (mocked db) ctx model (ex, w)
  = (Return (exec_Result op, None),
     (mkMockQueryExecutor (Ops ex) (idx ex + 1), write m v w))
  /\ held_value (exec_Model op) (write m v w) = Some v.
Proof.
  intros model (_ & _ & Hins) Hok Hnop He Hargs Hm Ha Hv.
  split; [|rewrite Hm; apply held_value_written].
  unfold Bunoffe_Insert. simpl.
  rewrite (Exec_at_next _ _ _ _ _ _ Hok Hnop).
  unfold Exec_operation. rewrite He.
  rewrite (bind_return _ _ _ _ _
    (Exec_model_step_ok op _ (mkModel model) (TStruct name) m v w
       Hm Hins Ha eq_refl Hv)).
  cbv beta. unfold Exec_args_step. by rewrite Hargs.
Qed.

Lemma Bunoffe_Insert_captures_model_witness :
  Bunoffe_Insert (mocked TestMocks.bundb) Background TestMocks.n_ptr
    (mkMockQueryExecutor TestMocks.exec_ops 2, TestMocks.world0)
  = (Return (Some TestMocks.result_, None),
     (mkMockQueryExecutor TestMocks.exec_ops 3,
      write TestMocks.m_loc (TestMocks.model "" 0) TestMocks.world0)).
Proof.
  destruct (Bunoffe_Insert_captures_model TestMocks.bundb Background
              (mkMockQueryExecutor TestMocks.exec_ops 2) TestMocks.world0
              (mkMockExecOperation TestMocks.m_ptr [] (Some TestMocks.result_) None)
              "bunoffe.model" TestMocks.m_loc TestMocks.n_loc (TestMocks.model "" 0))
    as [H _];
    [ apply bundb_registers_model
    | unfold slice_ok, len, max_int; simpl; lia
    | reflexivity | reflexivity | reflexivity | reflexivity
    | vm_compute; eauto
    | reflexivity
    | exact H ].
Defined.

Lemma Exec_same_shape ctx q args ex w :
  Ops (MockQueryExecutor_Exec ctx q args (ex, w)).2.1 = Ops ex
  /\ same_shape w (MockQueryExecutor_Exec ctx q args (ex, w)).2.2.
Proof.
  pose proof (call_same_shape (CallExec ctx q args) ex w) as H.
  simpl in H. by rewrite map_result_snd in H.
Qed.

Lemma Scan_same_shape ctx q args ex w :
  Ops (MockQueryExecutor_Scan ctx q args (ex, w)).2.1 = Ops ex
  /\ same_shape w (MockQueryExecutor_Scan ctx q args (ex, w)).2.2.
Proof.
  pose proof (call_same_shape (CallScan ctx q args) ex w) as H.
  simpl in H. by rewrite map_result_snd in H.
Qed.

Lemma Exists_same_world ctx q ex w :
  Ops (MockQueryExecutor_Exists ctx q (ex, w)).2.1 = Ops ex
  /\ (MockQueryExecutor_Exists ctx q (ex, w)).2.2 = w.
Proof.
  rewrite Exists_unfold. pose proof (nextOp_Ops ex) as HOps.
  destruct (nextOp ex) as [[nop|p] ex']; simpl in *; [|done].
  split; [done|]. apply Exists_operation_pure.
Qed.

(** X16. Under the mock no method of Bunoffe reaches the database, whatever
    its queries would do there: after each of the nine, returned or
    panicked, the database and the set of variables are as before and the
    script is unchanged; the two Exists methods change nothing in the world
    at all. *)
Theorem Bunoffe_mocked_keeps_database db ctx ex w model cond args pks :
  let b := mocked db in
  let kept {A} (out : result A * (MockQueryExecutor * World)) :=
    Ops out.2.1 = Ops ex /\ same_shape w out.2.2 in
  kept (Bunoffe_ScanWhere b ctx model cond args (ex, w))
  /\ kept (Bunoffe_ScanWherePK b ctx model pks (ex, w))
  /\ kept (Bunoffe_SelectWhere b ctx model cond args (ex, w))
  /\ kept (Bunoffe_SelectWherePK b ctx model pks (ex, w))
  /\ kept (Bunoffe_ExistsWhere b ctx model cond args (ex, w))
  /\ kept (Bunoffe_ExistsWherePK b ctx model pks (ex, w))
  /\ kept (Bunoffe_Insert b ctx model (ex, w))
  /\ kept (Bunoffe_Update b ctx model (ex, w))
  /\ kept (Bunoffe_DeleteWherePK b ctx model pks (ex, w))
  /\ (Bunoffe_ExistsWhere b ctx model cond args (ex, w)).2.2 = w
  /\ (Bunoffe_ExistsWherePK b ctx model pks (ex, w)).2.2 = w.
Proof.
  intros b kept. subst kept. cbv beta.
  unfold Bunoffe_ScanWhere, Bunoffe_ScanWherePK, Bunoffe_SelectWhere,
    Bunoffe_SelectWherePK, Bunoffe_ExistsWhere, Bunoffe_ExistsWherePK,
    Bunoffe_Insert, Bunoffe_Update, Bunoffe_DeleteWherePK. simpl.
  assert (Hexists : forall q,
            (Ops (MockQueryExecutor_Exists ctx q (ex, w)).2.1 = Ops ex
             /\ same_shape w (MockQueryExecutor_Exists ctx q (ex, w)).2.2)
            /\ (MockQueryExecutor_Exists ctx q (ex, w)).2.2 = w).
  { intros q. destruct (Exists_same_world ctx q ex w) as [H1 H2].
    rewrite H2. by split_and!. }
  split_and!;
    first [ apply Exec_same_shape | apply Scan_same_shape | apply Hexists ].
Qed.

(** X17. Under the mock ExistsWhere and ExistsWherePK give the scripted
    answer of the MockExistsOperation they consume, (false, op.Error) or
    (op.Exists, nil), whatever the database, the model and the condition,
    and leave the world as it was. *)
Theorem Bunoffe_Exists_methods_scripted db ctx ex w op model cond condArgs pks :
  slice_ok (Ops ex) ->
  index (Ops ex) (idx ex) = Some (ExistsOperation op) ->
  let b := mocked db in
  let scripted :=
    (Return (match exists_Error op with
             | Some e => (false, Some e)
             | None => (exists_Exists op, None)
             end),
     (mkMockQueryExecutor (Ops ex) (idx ex + 1), w)) in
  Bunoffe_ExistsWhere b ctx model cond condArgs (ex, w) = scripted
  /\ Bunoffe_ExistsWherePK b ctx model pks (ex, w) = scripted.
Proof.
  intros Hok Hnop b scripted.
  split; unfold Bunoffe_ExistsWhere, Bunoffe_ExistsWherePK; simpl;
    rewrite (Exists_at_next _ _ _ _ _ Hok Hnop); by rewrite Exists_operation_match.
Qed.

Lemma Bunoffe_Exists_methods_scripted_witness :
  Bunoffe_ExistsWhere (mocked TestMocks.bundb) Background TestMocks.n_ptr "id = ?"
    [Some (VInt 7)] (mkMockQueryExecutor TestMocks.exists_ops 2, TestMocks.world0)
  = (Return (true, None), (mkMockQueryExecutor TestMocks.exists_ops 3, TestMocks.world0)).
Proof.
  destruct (Bunoffe_Exists_methods_scripted TestMocks.bundb Background
              (mkMockQueryExecutor TestMocks.exists_ops 2) TestMocks.world0
              (mkMockExistsOperation true None) TestMocks.n_ptr "id = ?"
              [Some (VInt 7)] []) as [H _];
    [unfold slice_ok, len, max_int; simpl; lia|reflexivity|exact H].
Defined.

(** ** The panic messages *)

Lemma append_quote_inj (x y : string) : x +:+ "'" = y +:+ "'" -> x = y.
Proof.
  revert y. induction x as [|a x IH]; intros [|b y]; simpl; try done.
  - intros [= _ Hy]. by destruct y.
  - intros [= _ Hx]. by destruct x.
  - intros [= -> Hxy]. f_equal. by apply IH.
Qed.

(** X18. The panics this package raises can be told apart by their
    messages: an exhaustion message is never a cast message nor the length
    message, a cast message is never the length message, and two cast
    messages of the same method are equal only if they name the same type
    found; so a cast panic tells a nil operation and the three operation
    structs apart. *)
Theorem panic_messages_tell_apart :
  (forall i n expected found, exhausted_message i n <> opCastError expected found)
  /\ (forall i n, exhausted_message i n <> args_length_message)
  /\ (forall expected found, opCastError expected found <> args_length_message)
  /\ (forall expected found1 found2,
        opCastError expected found1 = opCastError expected found2 <->
        type_name_of found1 = type_name_of found2)
  /\ (forall expected eop sop xop,
        NoDup [ opCastError expected NilOperation;
                opCastError expected (ExecOperation eop);
                opCastError expected (ScanOperation sop);
                opCastError expected (ExistsOperation xop) ]).
Proof.
  assert (Hinj : forall expected found1 found2,
            opCastError expected found1 = opCastError expected found2 ->
            type_name_of found1 = type_name_of found2).
  { intros expected found1 found2. unfold opCastError.
    intros H%(inj (String.append _))%(inj (String.append _))%(inj (String.append _)).
    by apply append_quote_inj. }
  split_and!.
  - apply exhausted_not_cast.
  - apply exhausted_not_args_length.
  - apply cast_not_args_length.
  - intros expected found1 found2. split; [apply Hinj|].
    unfold opCastError. by intros ->.
  - intros expected eop sop xop.
    repeat (apply NoDup_cons; split);
      [ | | | by intros ?%elem_of_nil | apply NoDup_nil_2 ];
      rewrite ?elem_of_cons, elem_of_nil; intros H;
      repeat (destruct H as [H|H]; [by apply Hinj in H|]); done.
Qed.
